(** * Interview time-slot scheduling: model and verified properties

    Shallow embedding of [src/models/Interview.js] (schema, virtuals and
    the two statics [checkTimeConflict] and [cleanupExpiredInterviews]) and
    of the interview handlers of [src/routes/interviews.js]; further, of
    the apply and delete handlers of [src/routes/jobs.js], which decide
    what the application guard of schedule reads, and of the Todo model
    with its [save] hook and its toggle, delete, archive and restore
    handlers.

    Conventions of the embedding.
    - An instant ([Date]) is its [getTime()] value: an integer number of
      milliseconds, a [Z].
    - [duration] is the stored [Number] of minutes.  The schema puts no
      validator on it, so it ranges over all of [Z] (zero and negative
      values included); fractional values are outside the model.
    - The [interviews] collection is a finite map from [_id] to document;
      the [jobs] collection likewise.
    - Every handler reads the clock once: [now] is an explicit argument.
    - A handler is a function from the collection to an HTTP reply and the
      collection afterwards.  The [catch] branches (status 500) answer
      failures of the database driver, which the model does not have.
    - The bookkeeping fields added by the schema option [timestamps] are
      not part of the data model and are left out. *)

From Stdlib Require Import ZArith Bool List.
From stdpp Require Import gmap strings list fin_maps sorting pretty.

Local Open Scope Z_scope.

(** ** Identifiers and enumerations *)

Abbreviation ObjectId := nat (only parsing).
Abbreviation Instant := Z (only parsing).

(** [status: enum ["scheduled","in-progress","completed","cancelled","expired"]] *)
Inductive Status : Set :=
  | scheduled
  | in_progress
  | completed
  | cancelled
  | expired.

#[global] Instance Status_eq_dec : EqDecision Status.
Proof. solve_decision. Defined.

(** [type: enum ["ai-interview","hr-interview"]] *)
Inductive InterviewType : Set :=
  | ai_interview
  | hr_interview.

#[global] Instance InterviewType_eq_dec : EqDecision InterviewType.
Proof. solve_decision. Defined.

(** ** The Interview model ([src/models/Interview.js]) *)

Module Interview.

(** The document, without its [_id] (the key of the collection). *)
Record t : Set := mk {
  user : ObjectId;
  job : ObjectId;
  scheduledAt : Instant;
  duration : Z;
  status : Status;
  type : InterviewType;
  meetingRoom : option string;
  notes : option string;
  startedAt : option Instant;
  completedAt : option Instant
}.

#[global] Instance t_eq_dec : EqDecision t.
Proof. solve_decision. Defined.

Definition set_status (s : Status) (d : t) : t :=
  mk (user d) (job d) (scheduledAt d) (duration d) s (type d)
     (meetingRoom d) (notes d) (startedAt d) (completedAt d).

Definition set_startedAt (v : option Instant) (d : t) : t :=
  mk (user d) (job d) (scheduledAt d) (duration d) (status d) (type d)
     (meetingRoom d) (notes d) v (completedAt d).

Definition set_completedAt (v : option Instant) (d : t) : t :=
  mk (user d) (job d) (scheduledAt d) (duration d) (status d) (type d)
     (meetingRoom d) (notes d) (startedAt d) v.

Definition set_notes (v : option string) (d : t) : t :=
  mk (user d) (job d) (scheduledAt d) (duration d) (status d) (type d)
     (meetingRoom d) v (startedAt d) (completedAt d).

(** [new Interview({user, job, scheduledAt, duration, type})]: the other
    paths take their schema defaults. *)
Definition create (u j : ObjectId) (at_ : Instant) (dur : Z)
    (ty : InterviewType) : t :=
  mk u j at_ dur scheduled ty None None None None.

(** The collection. *)
Abbreviation Collection := (gmap nat t) (only parsing).

(** The aggregation expression
    [{ $add: ["$scheduledAt", { $multiply: ["$duration", 60000] }] }]. *)
Definition exprEnd (d : t) : Instant := scheduledAt d + duration d * 60000.

(** Virtual [isExpired]. *)
Definition isExpired (now : Instant) (d : t) : bool :=
  let endTime := scheduledAt d + duration d * 60 * 1000 in
  (endTime <? now) && bool_decide (status d = scheduled).

(** Virtual [timeUntilStart]. *)
Definition timeUntilStart (now : Instant) (d : t) : Z :=
  let timeDiff := scheduledAt d - now in
  Z.max 0 timeDiff.

(** Virtual [timeRemaining]. *)
Definition timeRemaining (now : Instant) (d : t) : Z :=
  match startedAt d with
  | Some started =>
      if bool_decide (status d = in_progress) then
        let endTime := started + duration d * 60 * 1000 in
        let timeDiff := endTime - now in
        Z.max 0 timeDiff
      else 0
  | None => 0
  end.

(** [status: { $in: ["scheduled", "in-progress"] }] *)
Definition statusActive (d : t) : bool :=
  bool_decide (status d = scheduled) || bool_decide (status d = in_progress).

(** The three alternatives of the [$or] of [checkTimeConflict]. *)
Definition startsDuring (startTime : Instant) (d : t) : bool :=
  (scheduledAt d <=? startTime) && (startTime <? exprEnd d).

Definition endsDuring (endTime : Instant) (d : t) : bool :=
  (scheduledAt d <? endTime) && (endTime <? exprEnd d).

Definition contains (startTime endTime : Instant) (d : t) : bool :=
  (startTime <=? scheduledAt d) && (exprEnd d <=? endTime).

(** The query object built by [checkTimeConflict], as a predicate on a
    document and its [_id]. *)
Definition conflictQuery (startTime endTime : Instant)
    (excludeId : option ObjectId) (id : ObjectId) (d : t) : bool :=
  statusActive d
  && (startsDuring startTime d || endsDuring endTime d
      || contains startTime endTime d)
  && match excludeId with
     | Some x => negb (bool_decide (id = x))
     | None => true
     end.

(** [Model.findOne(query)]: some document matching the query, if any. *)
Definition findOne (q : ObjectId -> t -> bool) (c : Collection)
    : option (ObjectId * t) :=
  List.find (fun kv => q (fst kv) (snd kv)) (map_to_list c).

(** Static [checkTimeConflict(scheduledAt, duration, excludeId = null)]. *)
Definition checkTimeConflict (c : Collection) (at_ : Instant) (dur : Z)
    (excludeId : option ObjectId) : option (ObjectId * t) :=
  let startTime := at_ in
  let endTime := startTime + dur * 60 * 1000 in
  findOne (conflictQuery startTime endTime excludeId) c.

(** The filter of [cleanupExpiredInterviews]. *)
Definition expiredQuery (now : Instant) (d : t) : bool :=
  bool_decide (status d = scheduled) && (exprEnd d <? now).

(** The result object of [updateMany]. *)
Record UpdateResult : Set := mkResult {
  matchedCount : nat;
  modifiedCount : nat
}.

(** [Model.updateMany(filter, update)]: every matching document is
    updated; [modifiedCount] counts those the update really changed. *)
Definition updateMany (q : t -> bool) (upd : t -> t) (c : Collection)
    : UpdateResult * Collection :=
  (mkResult
     (size (filter (fun kv => q (snd kv) = true) c))
     (size (filter (fun kv => q (snd kv) = true /\ upd (snd kv) <> snd kv) c)),
   (fun d => if q d then upd d else d) <$> c).

(** Static [cleanupExpiredInterviews()]. *)
Definition cleanupExpiredInterviews (now : Instant) (c : Collection)
    : UpdateResult * Collection :=
  updateMany (expiredQuery now) (set_status expired) c.

End Interview.

(** ** The part of the Job model the scheduler reads *)

Module Job.

(** An entry of [applications]; only [user] is read here. *)
Record Application : Set := mkApplication {
  user : ObjectId
}.

Record t : Set := mk {
  applications : list Application
}.

Abbreviation Collection := (gmap nat t) (only parsing).

(** [Job.findById(jobId)] *)
Definition findById (id : ObjectId) (c : Collection) : option t := c !! id.

End Job.

(** ** HTTP replies *)

(** The fields a handler adds to [{success, message}]. *)
Inductive Payload : Set :=
  | NoData
  | TimeUntilStartData (timeUntilStart : Z)
  | ScheduledData (id : ObjectId) (doc : Interview.t) (timeUntilStart : Z)
  | StartedData (id : ObjectId) (timeRemaining : Z) (duration : Z)
  | DetailsData (id : ObjectId) (doc : Interview.t)
      (timeUntilStart timeRemaining : Z) (isExpired : bool)
  | CleanupData (modifiedCount : nat).

(** [res.status(code).json({success, message, ...data})] *)
Record Response : Set := mkResponse {
  code : nat;
  success : bool;
  message : string;
  data : Payload
}.

Definition fail (c : nat) (msg : string) : Response :=
  mkResponse c false msg NoData.

Definition ok (msg : string) (p : Payload) : Response :=
  mkResponse 200 true msg p.

(** The error replies of the handlers, under the names of the spec. *)
Definition MissingFields : Response :=
  fail 400 "Job ID and scheduled time are required".
Definition JobNotFound : Response := fail 404 "Job not found".
Definition NotApplied : Response :=
  fail 400 "You must apply to this job before scheduling an interview".
Definition InvalidTime : Response :=
  fail 400 "Interview must be scheduled for a future time".
Definition SlotConflict : Response :=
  fail 400 "Time slot is already booked. Please choose a different time.".
Definition NotFound : Response := fail 404 "Interview not found".
Definition CannotCancelCompleted : Response :=
  fail 400 "Cannot cancel completed interview".
Definition TooEarly (timeUntilStart : Z) : Response :=
  mkResponse 400 false "Interview has not started yet"
    (TimeUntilStartData timeUntilStart).
Definition WindowExpired : Response := fail 400 "Interview time has expired".
Definition CannotStart : Response := fail 400 "Interview cannot be started".
Definition NotInProgress : Response := fail 400 "Interview is not in progress".

(** ** The handlers ([src/routes/interviews.js]) *)

Module Routes.

Import Interview.

(** The body of [POST /schedule].  [None] is an absent (falsy) field;
    [scheduledAt] carries the instant its ISO-8601 text parses to. *)
Record ScheduleBody : Set := mkScheduleBody {
  body_jobId : option ObjectId;
  body_scheduledAt : option Instant;
  body_duration : option Z
}.

(** [Interview.findOne({ _id: interviewId, user: userId })] *)
Definition findOwned (c : Interview.Collection) (interviewId userId : ObjectId)
    : option Interview.t :=
  match c !! interviewId with
  | Some d => if bool_decide (Interview.user d = userId) then Some d else None
  | None => None
  end.

(** [job.applications.some((app) => app.user.toString() === userId)] *)
Definition hasApplied (j : Job.t) (userId : ObjectId) : bool :=
  existsb (fun app => bool_decide (Job.user app = userId)) (Job.applications j).

(** The [_id] mongoose gives a new document: one not in the collection. *)
Definition newObjectId (c : Interview.Collection) : ObjectId := fresh (dom c).

(** [POST /schedule] *)
Definition schedule (jobs : Job.Collection) (c : Interview.Collection)
    (userId : ObjectId) (body : ScheduleBody) (now : Instant)
    : Response * Interview.Collection :=
  let duration :=
    match body_duration body with Some d => d | None => 10 end in
  match body_jobId body, body_scheduledAt body with
  | Some jobId, Some scheduledDate =>
      match Job.findById jobId jobs with
      | None => (JobNotFound, c)
      | Some job =>
          if negb (hasApplied job userId) then (NotApplied, c)
          else if scheduledDate <=? now then (InvalidTime, c)
          else
            match checkTimeConflict c scheduledDate duration None with
            | Some _ => (SlotConflict, c)
            | None =>
                let interview :=
                  create userId jobId scheduledDate duration ai_interview in
                let id := newObjectId c in
                (mkResponse 201 true "Interview scheduled successfully"
                   (ScheduledData id interview (timeUntilStart now interview)),
                 <[id := interview]> c)
            end
      end
  | _, _ => (MissingFields, c)
  end.

(** [DELETE /:id] *)
Definition cancel (c : Interview.Collection) (interviewId userId : ObjectId)
    : Response * Interview.Collection :=
  match findOwned c interviewId userId with
  | None => (NotFound, c)
  | Some interview =>
      if bool_decide (status interview = completed)
      then (CannotCancelCompleted, c)
      else (ok "Interview cancelled successfully" NoData, delete interviewId c)
  end.

(** [POST /:id/start] *)
Definition start (c : Interview.Collection) (interviewId userId : ObjectId)
    (now : Instant) : Response * Interview.Collection :=
  match findOwned c interviewId userId with
  | None => (NotFound, c)
  | Some interview =>
      let timeUntilStart := scheduledAt interview - now in
      let timeUntilEnd :=
        scheduledAt interview + duration interview * 60 * 1000 - now in
      if 0 <? timeUntilStart then (TooEarly timeUntilStart, c)
      else if timeUntilEnd <=? 0 then (WindowExpired, c)
      else if negb (bool_decide (status interview = scheduled))
      then (CannotStart, c)
      else
        let interview' :=
          set_startedAt (Some now) (set_status in_progress interview) in
        (ok "Interview started successfully"
           (StartedData interviewId (timeRemaining now interview')
              (duration interview')),
         <[interviewId := interview']> c)
  end.

(** [if (notes)]: an absent or empty [notes] is falsy. *)
Definition truthy (notes : option string) : bool :=
  match notes with
  | Some s => negb (bool_decide (s = ""%string))
  | None => false
  end.

(** [POST /:id/complete] *)
Definition complete (c : Interview.Collection) (interviewId userId : ObjectId)
    (notes : option string) (now : Instant)
    : Response * Interview.Collection :=
  match findOwned c interviewId userId with
  | None => (NotFound, c)
  | Some interview =>
      if negb (bool_decide (status interview = in_progress))
      then (NotInProgress, c)
      else
        let interview1 :=
          set_completedAt (Some now) (set_status completed interview) in
        let interview2 :=
          if truthy notes then set_notes notes interview1 else interview1 in
        (ok "Interview completed successfully" NoData,
         <[interviewId := interview2]> c)
  end.

(** [GET /:id]; its reply has no [message]. *)
Definition get (c : Interview.Collection) (interviewId userId : ObjectId)
    (now : Instant) : Response :=
  match findOwned c interviewId userId with
  | None => NotFound
  | Some interview =>
      mkResponse 200 true ""
        (DetailsData interviewId interview (timeUntilStart now interview)
           (timeRemaining now interview) (isExpired now interview))
  end.

(** [POST /cleanup], behind [authorizeRoles(["hr", "admin"])]. *)
Definition cleanup (c : Interview.Collection) (now : Instant)
    : Response * Interview.Collection :=
  let (result, c') := cleanupExpiredInterviews now c in
  (ok ("Cleaned up " +:+ pretty (modifiedCount result)
         +:+ " expired interviews")
      (CleanupData (modifiedCount result)),
   c').

(** [.sort({ scheduledAt: 1 })] *)
Definition byScheduledAt (a b : ObjectId * Interview.t) : Prop :=
  scheduledAt (snd a) <= scheduledAt (snd b).

#[global] Instance byScheduledAt_dec a b : Decision (byScheduledAt a b).
Proof. unfold byScheduledAt. apply _. Defined.

(** [GET /my-interviews]: the sweep, then the caller's active interviews by
    ascending [scheduledAt]. *)
Definition myInterviews (c : Interview.Collection) (userId : ObjectId)
    (now : Instant) : list (ObjectId * Interview.t) * Interview.Collection :=
  let (_, c') := cleanupExpiredInterviews now c in
  (merge_sort byScheduledAt
     (List.filter
        (fun kv => bool_decide (Interview.user (snd kv) = userId)
                   && statusActive (snd kv))
        (map_to_list c')),
   c').

End Routes.

(** ** The job handlers behind the application guard ([src/routes/jobs.js]) *)

Module Jobs.

(** [status: enum ["active", "paused", "closed"]] of a job. *)
Inductive JobStatus : Set :=
  | active
  | paused
  | closed.

#[global] Instance JobStatus_eq_dec : EqDecision JobStatus.
Proof. solve_decision. Defined.

(** [status: enum ["pending", "reviewed", "accepted", "rejected"]] of an
    application. *)
Inductive ApplicationStatus : Set :=
  | pending
  | reviewed
  | accepted
  | rejected.

(** An element of [applications], with the paths [POST /:id/apply] gives. *)
Record Application : Set := mkApplication {
  user : ObjectId;
  coverLetter : string;
  appliedAt : Instant;
  applicationStatus : ApplicationStatus
}.

(** The paths of a job document that apply and delete read or write. *)
Record t : Set := mk {
  postedBy : ObjectId;
  status : JobStatus;
  isArchived : bool;
  applications : list Application
}.

Abbreviation Collection := (gmap nat t) (only parsing).

(** [res.status(code).json({ error })] and [res.json({ message })]. *)
Inductive Reply : Set :=
  | Error (code : nat) (error : string)
  | Message (message : string).

(** [coverLetter: { type: String, maxlength: 1000 }], checked by [save];
    the length is that of the text in characters (ASCII text). *)
Definition coverLetterValid (text : string) : bool :=
  Nat.leb (String.length text) 1000.

(** [POST /:id/apply], behind [authorizeRoles("student")].  A [save] that
    fails validation throws, and the [catch] answers 500. *)
Definition apply (jobs : Collection) (id userId : ObjectId)
    (letter : option string) (now : Instant) : Reply * Collection :=
  match jobs !! id with
  | None => (Error 404 "Job not found or not available", jobs)
  | Some job =>
      if isArchived job || negb (bool_decide (status job = active))
      then (Error 404 "Job not found or not available", jobs)
      else
        match List.find (fun app => bool_decide (user app = userId))
                (applications job) with
        | Some _ => (Error 400 "You have already applied to this job", jobs)
        | None =>
            let application :=
              mkApplication userId (default ""%string letter) now pending in
            if coverLetterValid (coverLetter application) then
              (Message "Application submitted successfully",
               <[id := mk (postedBy job) (status job) (isArchived job)
                          (applications job ++ [application])]> jobs)
            else (Error 500 "Internal server error", jobs)
        end
  end.

(** [DELETE /:id], behind [authorizeRoles("hr")]: a soft delete. *)
Definition remove (jobs : Collection) (id userId : ObjectId)
    : Reply * Collection :=
  match jobs !! id with
  | None => (Error 404 "Job not found", jobs)
  | Some job =>
      if negb (bool_decide (postedBy job = userId))
      then (Error 403 "Not authorized to delete this job", jobs)
      else
        (Message "Job deleted successfully",
         <[id := mk (postedBy job) closed true (applications job)]> jobs)
  end.

(** What [POST /schedule] reads of a job document. *)
Definition toJob (job : t) : Job.t :=
  Job.mk (List.map (fun app => Job.mkApplication (user app))
            (applications job)).

(** The jobs collection as [POST /schedule] reads it. *)
Definition schedulerView (jobs : Collection) : Job.Collection :=
  toJob <$> jobs.

End Jobs.

(** ** The Todo model and its toggle, delete and archive handlers *)

Module Todo.

(** [priority: enum ["low", "medium", "high"]] *)
Inductive Priority : Set :=
  | low
  | medium
  | high.

Record t : Set := mk {
  title : string;
  description : string;
  completed : bool;
  priority : Priority;
  dueDate : option Instant;
  category : string;
  tags : list string;
  user : ObjectId;
  isArchived : bool;
  completedAt : option Instant
}.

Abbreviation Collection := (gmap nat t) (only parsing).

Definition set_completed (v : bool) (d : t) : t :=
  mk (title d) (description d) v (priority d) (dueDate d) (category d)
     (tags d) (user d) (isArchived d) (completedAt d).

Definition set_completedAt (v : option Instant) (d : t) : t :=
  mk (title d) (description d) (completed d) (priority d) (dueDate d)
     (category d) (tags d) (user d) (isArchived d) v.

Definition set_isArchived (v : bool) (d : t) : t :=
  mk (title d) (description d) (completed d) (priority d) (dueDate d)
     (category d) (tags d) (user d) v (completedAt d).

(** The hook [todoSchema.pre("save", ...)]; [completedModified] is
    [this.isModified("completed")]. *)
Definition preSave (completedModified : bool) (now : Instant) (d : t) : t :=
  if completedModified then
    if completed d && negb (bool_decide (is_Some (completedAt d)))
    then set_completedAt (Some now) d
    else if negb (completed d) && bool_decide (is_Some (completedAt d))
    then set_completedAt None d
    else d
  else d.

(** [res.status(code).json({ error })], [res.json(todo)] and
    [res.json({ message })]. *)
Inductive Reply : Set :=
  | Error (code : nat) (error : string)
  | Document (id : ObjectId) (todo : t)
  | Message (message : string).

(** [Todo.findOne({ _id: req.params.id, user: req.user._id })] *)
Definition findOwned (c : Collection) (id userId : ObjectId) : option t :=
  match c !! id with
  | Some d => if bool_decide (user d = userId) then Some d else None
  | None => None
  end.

(** [PATCH /:id/toggle] *)
Definition toggle (c : Collection) (id userId : ObjectId) (now : Instant)
    : Reply * Collection :=
  match findOwned c id userId with
  | None => (Error 404 "Todo not found", c)
  | Some todo =>
      let todo' := preSave true now (set_completed (negb (completed todo)) todo) in
      (Document id todo', <[id := todo']> c)
  end.

(** [DELETE /:id], a [findOneAndDelete]. *)
Definition remove (c : Collection) (id userId : ObjectId)
    : Reply * Collection :=
  match findOwned c id userId with
  | None => (Error 404 "Todo not found", c)
  | Some _ => (Message "Todo deleted successfully", delete id c)
  end.

(** [findOneAndUpdate({ _id, user }, { isArchived: v }, { new: true })],
    which runs no [save] hook. *)
Definition setArchived (v : bool) (c : Collection) (id userId : ObjectId)
    : Reply * Collection :=
  match findOwned c id userId with
  | None => (Error 404 "Todo not found", c)
  | Some todo =>
      (Document id (set_isArchived v todo), <[id := set_isArchived v todo]> c)
  end.

(** [PATCH /:id/archive] *)
Definition archive := setArchived true.

(** [PATCH /:id/restore] *)
Definition restore := setArchived false.

End Todo.

(** ** Reference definitions, worded as the specification words them *)

Import Interview Routes.

(** The standard half-open overlap test of two intervals [[s1,e1)] and
    [[s2,e2)]: [s1 < e2 && s2 < e1]. *)
Definition overlapsSpec (s1 e1 s2 e2 : Instant) : bool :=
  (s1 <? e2) && (s2 <? e1).

(** The end of the slot of a stored interview. *)
Definition endTime (d : Interview.t) : Instant :=
  scheduledAt d + duration d * 60 * 1000.

(** No two distinct interviews in status scheduled or in-progress have
    overlapping slots. *)
Definition exclusive (c : Interview.Collection) : Prop :=
  forall i1 i2 d1 d2,
    c !! i1 = Some d1 -> c !! i2 = Some d2 -> i1 <> i2 ->
    statusActive d1 = true -> statusActive d2 = true ->
    overlapsSpec (scheduledAt d1) (endTime d1) (scheduledAt d2) (endTime d2)
    = false.

(** ** Histories of requests *)

(** A request reaching one of the handlers, with the caller [req.user.id]. *)
Inductive Request : Type :=
  | ReqSchedule (userId : ObjectId) (body : ScheduleBody)
  | ReqCancel (interviewId userId : ObjectId)
  | ReqStart (interviewId userId : ObjectId)
  | ReqComplete (interviewId userId : ObjectId) (notes : option string)
  | ReqGet (interviewId userId : ObjectId)
  | ReqMyInterviews (userId : ObjectId)
  | ReqCleanup.

(** A request arrives at some instant, with the jobs collection of then. *)
Record Arrival : Type := mkArrival {
  at_jobs : Job.Collection;
  at_now : Instant;
  at_request : Request
}.

(** The collection after a request was served. *)
Definition serve (c : Interview.Collection) (a : Arrival)
    : Interview.Collection :=
  match at_request a with
  | ReqSchedule u body => snd (schedule (at_jobs a) c u body (at_now a))
  | ReqCancel id u => snd (cancel c id u)
  | ReqStart id u => snd (start c id u (at_now a))
  | ReqComplete id u notes => snd (complete c id u notes (at_now a))
  | ReqGet _ _ => c
  | ReqMyInterviews u => snd (myInterviews c u (at_now a))
  | ReqCleanup => snd (cleanup c (at_now a))
  end.

(** The collection after a history of requests, served one after another. *)
Definition run (c : Interview.Collection) (history : list Arrival)
    : Interview.Collection :=
  fold_left serve history c.

(** ** Sample data for the worked examples *)

(** A job with applications of the candidates 1 and 2. *)
Definition sampleJobs : Job.Collection :=
  {[ 7%nat := Job.mk [Job.mkApplication 1; Job.mkApplication 2] ]}.

Definition bodyFor (at_ : Instant) (dur : option Z) : ScheduleBody :=
  mkScheduleBody (Some 7%nat) (Some at_) dur.

(** The collection after candidate 1 booked instant [at_] at time 0. *)
Definition bookedBy1 (at_ : Instant) (dur : option Z) : Interview.Collection :=
  snd (schedule sampleJobs ∅ 1%nat (bodyFor at_ dur) 0).

(** Candidate 1's default booking of instant 1000: the slot [[1000,601000)]. *)
Definition sampleDoc : Interview.t := create 1 7 1000 10 ai_interview.

(** A booking of instant 1000 with duration 0: the slot [[1000,1000)]. *)
Definition zeroDoc : Interview.t := create 1 7 1000 0 ai_interview.

(** A booking of instant 600000 with duration -5: its end, 300000, lies
    before its start. *)
Definition negativeDoc : Interview.t := create 1 7 600000 (-5) ai_interview.

(** The same booking after a sweep at instant 400000. *)
Definition sweptNegative : Interview.Collection :=
  snd (cleanup (bookedBy1 600000 (Some (-5))) 400000).

(** The default booking, started at 1000 and then completed at 2000. *)
Definition startedSample : Interview.Collection :=
  snd (start (bookedBy1 1000 None) 0 1 1000).

Definition completedSample : Interview.Collection :=
  snd (complete startedSample 0 1 (Some "fine"%string) 2000).

(** ** The reply of [GET /my-interviews] *)

(** An element of [interviews] in the reply.  [job] stays the reference:
    [populate] only joins the title, company and location of the job. *)
Record ListedInterview : Set := mkListed {
  listed_id : ObjectId;
  listed_job : ObjectId;
  listed_scheduledAt : Instant;
  listed_duration : Z;
  listed_status : Status;
  listed_type : InterviewType;
  listed_timeUntilStart : Z;
  listed_timeRemaining : Z;
  listed_isExpired : bool
}.

(** [interviews.map((interview) => ({ id: interview._id, ... }))] *)
Definition listed (now : Instant) (kv : ObjectId * Interview.t)
    : ListedInterview :=
  let interview := snd kv in
  mkListed (fst kv) (job interview) (scheduledAt interview)
    (duration interview) (status interview) (type interview)
    (timeUntilStart now interview) (timeRemaining now interview)
    (isExpired now interview).

Definition myInterviewsReply (c : Interview.Collection) (userId : ObjectId)
    (now : Instant) : list ListedInterview :=
  List.map (listed now) (fst (myInterviews c userId now)).

(** ** Vocabulary of the lifecycle *)

(** The document written by a successful start. *)
Definition started (now : Instant) (d : Interview.t) : Interview.t :=
  set_startedAt (Some now) (set_status in_progress d).

(** The document written by a successful complete. *)
Definition finished (supplied : option string) (now : Instant)
    (d : Interview.t) : Interview.t :=
  let d1 := set_completedAt (Some now) (set_status completed d) in
  if truthy supplied then set_notes supplied d1 else d1.

(** The moves of the status the handlers make. *)
Definition statusStep (s s' : Status) : Prop :=
  s' = s
  \/ (s = scheduled /\ s' = in_progress)
  \/ (s = in_progress /\ s' = completed)
  \/ (s = scheduled /\ s' = expired).

(** The paths of a booking no handler writes after creation. *)
Definition sameBooking (d d' : Interview.t) : Prop :=
  Interview.user d' = Interview.user d /\ job d' = job d
  /\ scheduledAt d' = scheduledAt d /\ duration d' = duration d
  /\ type d' = type d /\ meetingRoom d' = meetingRoom d.

(** The instant [s] lies in the slot of [d]. *)
Definition inSlot (s : Instant) (d : Interview.t) : Prop :=
  scheduledAt d <= s < endTime d.

(** How [startedAt], [completedAt] and [notes] go with the status. *)
Definition lifecycleSound (d : Interview.t) : Prop :=
  match status d with
  | scheduled | expired =>
      startedAt d = None /\ completedAt d = None /\ notes d = None
  | in_progress =>
      (exists s, startedAt d = Some s /\ inSlot s d)
      /\ completedAt d = None /\ notes d = None
  | completed =>
      (exists s, startedAt d = Some s /\ inSlot s d)
      /\ is_Some (completedAt d)
  | cancelled => False
  end.

(** The request is a complete or a cancel of interview [id] by [u]. *)
Definition endsInterview (id u : ObjectId) (r : Request) : bool :=
  match r with
  | ReqComplete i v _ | ReqCancel i v =>
      bool_decide (i = id) && bool_decide (v = u)
  | _ => false
  end.

(** A job posted by user 9, active, without applications yet. *)
Definition openJobs : gmap nat Jobs.t :=
  {[ 7%nat := Jobs.mk 9 Jobs.active false [] ]}.

(** The same after candidate 1 applied at instant 50. *)
Definition appliedJobs : gmap nat Jobs.t :=
  snd (Jobs.apply openJobs 7 1 (Some "hello"%string) 50).

(** A todo of user 1, not completed. *)
Definition sampleTodo : Todo.t :=
  Todo.mk "write" "" false Todo.medium None "general" [] 1 false None.

(** The request is a cancel of interview [id] by [u]. *)
Definition cancelsInterview (id u : ObjectId) (r : Request) : bool :=
  match r with
  | ReqCancel i v => bool_decide (i = id) && bool_decide (v = u)
  | _ => false
  end.

(** The time values a [Date] can hold: at most 8.64e15 milliseconds from
    the epoch either way; beyond, [new Date(...)] is an Invalid Date. *)
Definition inDateRange (t : Instant) : Prop :=
  -8640000000000000 <= t <= 8640000000000000.

(** ** The two awaits of [POST /schedule] *)

(** The handler up to [await Interview.checkTimeConflict(...)]: a refusal,
    or the document it goes on to save. *)
Definition scheduleCheck (jobs : Job.Collection) (c : Interview.Collection)
    (userId : ObjectId) (body : ScheduleBody) (now : Instant)
    : Response + Interview.t :=
  let duration :=
    match body_duration body with Some d => d | None => 10 end in
  match body_jobId body, body_scheduledAt body with
  | Some jobId, Some scheduledDate =>
      match Job.findById jobId jobs with
      | None => inl JobNotFound
      | Some job =>
          if negb (hasApplied job userId) then inl NotApplied
          else if scheduledDate <=? now then inl InvalidTime
          else
            match checkTimeConflict c scheduledDate duration None with
            | Some _ => inl SlotConflict
            | None =>
                inr (create userId jobId scheduledDate duration ai_interview)
            end
      end
  | _, _ => inl MissingFields
  end.

(** The handler from [await interview.save()] on, with the collection as
    it is by then. *)
Definition scheduleSave (c : Interview.Collection) (interview : Interview.t)
    (now : Instant) : Response * Interview.Collection :=
  let id := newObjectId c in
  (mkResponse 201 true "Interview scheduled successfully"
     (ScheduledData id interview (timeUntilStart now interview)),
   <[id := interview]> c).

(** ** Histories of job requests *)

(** An apply or a delete reaching [src/routes/jobs.js]. *)
Inductive JobRequest : Type :=
  | JobApply (id userId : ObjectId) (letter : option string)
  | JobRemove (id userId : ObjectId).

Record JobArrival : Type := mkJobArrival {
  job_now : Instant;
  job_request : JobRequest
}.

(** The jobs after a request was served. *)
Definition serveJob (jobs : gmap nat Jobs.t) (a : JobArrival)
    : gmap nat Jobs.t :=
  match job_request a with
  | JobApply id u letter => snd (Jobs.apply jobs id u letter (job_now a))
  | JobRemove id u => snd (Jobs.remove jobs id u)
  end.

(** The jobs after a history of requests, served one after another. *)
Definition runJobs (jobs : gmap nat Jobs.t) (history : list JobArrival)
    : gmap nat Jobs.t :=
  fold_left serveJob history jobs.

(** ** Basic facts *)

Lemma exprEnd_endTime d : exprEnd d = endTime d.
Proof. unfold exprEnd, endTime. lia. Qed.

Lemma statusActive_iff d :
  statusActive d = true <-> status d = scheduled \/ status d = in_progress.
Proof.
  unfold statusActive.
  rewrite orb_true_iff, !bool_decide_eq_true. tauto.
Qed.

Lemma findOne_Some q (c : Interview.Collection) id d :
  findOne q c = Some (id, d) -> c !! id = Some d /\ q id d = true.
Proof.
  unfold findOne. intros H. apply find_some in H as [Hin Hq].
  split; [| exact Hq].
  apply elem_of_map_to_list. by apply list_elem_of_In.
Qed.

Lemma findOne_None q (c : Interview.Collection) :
  findOne q c = None <-> forall id d, c !! id = Some d -> q id d = false.
Proof.
  unfold findOne. split.
  - intros H id d Hl.
    apply (find_none _ _ H (id, d)).
    apply list_elem_of_In. by apply elem_of_map_to_list.
  - intros H. destruct (find _ _) as [[id d]|] eqn:E; [| done].
    apply find_some in E as [Hin Hq]. simpl in Hq.
    apply list_elem_of_In, elem_of_map_to_list in Hin.
    rewrite (H _ _ Hin) in Hq. discriminate.
Qed.

Lemma findOne_is_Some q (c : Interview.Collection) :
  is_Some (findOne q c) <-> exists id d, c !! id = Some d /\ q id d = true.
Proof.
  split.
  - intros [[id d] H]. exists id, d. by apply findOne_Some.
  - intros (id & d & Hl & Hq).
    destruct (findOne q c) eqn:E; [by eexists |].
    rewrite findOne_None in E. rewrite (E _ _ Hl) in Hq. discriminate.
Qed.

(** Turns a goal on boolean comparisons into linear arithmetic. *)
Ltac bool_to_lia :=
  rewrite ?orb_true_iff, ?andb_true_iff, ?orb_false_iff, ?andb_false_iff,
    ?negb_true_iff, ?negb_false_iff,
    ?Z.ltb_lt, ?Z.leb_le, ?Z.ltb_ge, ?Z.leb_gt in *.

(** Whatever the durations, the query of the model misses no overlap. *)
Lemma overlap_is_reported s1 e1 id d :
  statusActive d = true ->
  overlapsSpec s1 e1 (scheduledAt d) (endTime d) = true ->
  conflictQuery s1 e1 None id d = true.
Proof.
  intros Ha Ho. unfold conflictQuery, startsDuring, endsDuring, contains.
  rewrite Ha, !exprEnd_endTime. unfold overlapsSpec in Ho.
  bool_to_lia. lia.
Qed.

(** With both slots non-empty the query reports nothing but overlaps. *)
Lemma reported_is_overlap s1 e1 id d :
  s1 < e1 -> scheduledAt d < endTime d ->
  conflictQuery s1 e1 None id d = true ->
  overlapsSpec s1 e1 (scheduledAt d) (endTime d) = true.
Proof.
  intros H1 H2. unfold conflictQuery, startsDuring, endsDuring, contains.
  rewrite !exprEnd_endTime. unfold overlapsSpec.
  intros Hq. bool_to_lia. lia.
Qed.

Lemma checkTimeConflict_is_Some (c : Interview.Collection) at_ dur :
  is_Some (checkTimeConflict c at_ dur None) <->
  exists id d, c !! id = Some d
    /\ conflictQuery at_ (at_ + dur * 60 * 1000) None id d = true.
Proof. unfold checkTimeConflict. apply findOne_is_Some. Qed.

Lemma checkTimeConflict_None (c : Interview.Collection) at_ dur :
  checkTimeConflict c at_ dur None = None <->
  forall id d, c !! id = Some d ->
    conflictQuery at_ (at_ + dur * 60 * 1000) None id d = false.
Proof. unfold checkTimeConflict. apply findOne_None. Qed.

(** ** The conflict query and the half-open overlap test *)

(** C2, as amended.  For a requested slot of positive duration and a
    stored interview of positive duration, the query of
    [checkTimeConflict] matches the interview exactly when its status is
    scheduled or in-progress and the two slots pass the half-open overlap
    test [s1 < e2 && s2 < e1]; slots that abut are not matched; and on a
    collection of interviews of positive duration [checkTimeConflict]
    returns a document exactly when some active interview overlaps. *)
Theorem checkTimeConflict_overlap_test
    (c : Interview.Collection) (s1 dur : Z) (id : ObjectId) (d : Interview.t) :
  0 < dur -> 0 < duration d ->
  let e1 := s1 + dur * 60 * 1000 in
  conflictQuery s1 e1 None id d
  = statusActive d && overlapsSpec s1 e1 (scheduledAt d) (endTime d)
  /\ (endTime d = s1 \/ e1 = scheduledAt d ->
      conflictQuery s1 e1 None id d = false)
  /\ ((forall i x, c !! i = Some x -> 0 < duration x) ->
      (is_Some (checkTimeConflict c s1 dur None) <->
       exists i x, c !! i = Some x /\ statusActive x = true
         /\ overlapsSpec s1 e1 (scheduledAt x) (endTime x) = true)).
Proof.
  intros Hdur Hd e1.
  assert (Hq : forall i x, 0 < duration x ->
            conflictQuery s1 e1 None i x
            = statusActive x && overlapsSpec s1 e1 (scheduledAt x) (endTime x)).
  { intros i x Hx. destruct (statusActive x) eqn:Ha.
    - apply Bool.eq_iff_eq_true. split.
      + intros Hc. apply (reported_is_overlap s1 e1 i x); [| | exact Hc];
          unfold e1, endTime; lia.
      + intros Ho. by apply overlap_is_reported.
    - unfold conflictQuery. by rewrite Ha. }
  split; [by apply Hq |]. split.
  - intros Habut. rewrite Hq by done.
    apply andb_false_iff. right. unfold overlapsSpec.
    bool_to_lia. unfold e1 in *. lia.
  - intros Hall. rewrite checkTimeConflict_is_Some. fold e1.
    split; intros (i & x & Hl & H); exists i, x; (split; [done |]).
    + rewrite Hq in H by eauto. by apply andb_true_iff in H.
    + rewrite Hq by eauto. by apply andb_true_iff.
Qed.

(** A request for [[1000,601000)] against a stored slot [[301000,901000)]. *)
Lemma checkTimeConflict_overlap_test_witness :
  0 < 10 /\ 0 < duration (create 1 7 301000 10 ai_interview)
  /\ conflictQuery 1000 (1000 + 10 * 60 * 1000) None 0
       (create 1 7 301000 10 ai_interview) = true.
Proof.
  split; [lia |]. split; [simpl; lia |].
  destruct (checkTimeConflict_overlap_test ∅ 1000 10 0
              (create 1 7 301000 10 ai_interview)) as [H _];
    [lia | simpl; lia |].
  rewrite H. reflexivity.
Defined.

(** C2, counterexample.  Candidate 1 books instant 1000 with duration 0
    (the handler accepts it).  The stored slot [[1000,1000)] abuts the
    requested slot [[1000,601000)] and fails the overlap test, yet the
    query matches it and [checkTimeConflict] returns it. *)
Lemma checkTimeConflict_reports_abutting_empty_slot :
  bookedBy1 1000 (Some 0) !! 0%nat = Some zeroDoc
  /\ statusActive zeroDoc = true
  /\ endTime zeroDoc = 1000
  /\ overlapsSpec 1000 (1000 + 10 * 60 * 1000)
       (scheduledAt zeroDoc) (endTime zeroDoc) = false
  /\ conflictQuery 1000 (1000 + 10 * 60 * 1000) None 0 zeroDoc = true
  /\ checkTimeConflict (bookedBy1 1000 (Some 0)) 1000 10 None
     = Some (0%nat, zeroDoc).
Proof. vm_compute. repeat split. Qed.

(** ** Exclusivity of the booked slots, for requests served one by one

    The lemmas of this section take each handler as one step.  They say
    nothing of two [POST /schedule] whose conflict checks both come before
    either [save]. *)

Lemma overlapsSpec_sym s1 e1 s2 e2 :
  overlapsSpec s1 e1 s2 e2 = overlapsSpec s2 e2 s1 e1.
Proof. unfold overlapsSpec. apply andb_comm. Qed.

(** A collection whose active interviews all come, slot unchanged, from
    active interviews of an exclusive collection is exclusive. *)
Lemma exclusive_shrink (c c' : Interview.Collection) :
  (forall i d', c' !! i = Some d' -> statusActive d' = true ->
     exists d, c !! i = Some d /\ statusActive d = true
       /\ scheduledAt d = scheduledAt d' /\ duration d = duration d') ->
  exclusive c -> exclusive c'.
Proof.
  intros Hsub Hex i1 i2 d1' d2' H1 H2 Hne Ha1 Ha2.
  destruct (Hsub _ _ H1 Ha1) as (d1 & L1 & A1 & S1 & D1).
  destruct (Hsub _ _ H2 Ha2) as (d2 & L2 & A2 & S2 & D2).
  specialize (Hex _ _ _ _ L1 L2 Hne A1 A2).
  unfold endTime in *. by rewrite <- S1, <- D1, <- S2, <- D2.
Qed.

Lemma exclusive_empty : exclusive ∅.
Proof. intros i1 i2 d1 d2 H. by rewrite lookup_empty in H. Qed.

Lemma newObjectId_fresh (c : Interview.Collection) : c !! newObjectId c = None.
Proof. apply not_elem_of_dom. unfold newObjectId. apply is_fresh. Qed.

Lemma schedule_exclusive jobs c u body now :
  exclusive c -> exclusive (snd (schedule jobs c u body now)).
Proof.
  intros Hex. unfold schedule.
  destruct (body_jobId body) as [jobId|]; [| done].
  destruct (body_scheduledAt body) as [at_|]; [| done].
  destruct (Job.findById jobId jobs) as [job|]; [| done].
  destruct (negb (hasApplied job u)); [done |].
  destruct (at_ <=? now); [done |].
  destruct (checkTimeConflict _ _ _ _) eqn:Hc; [done |]. simpl.
  rewrite checkTimeConflict_None in Hc.
  set (dur := match body_duration body with Some d => d | None => 10 end) in *.
  assert (Hnew : forall i d, c !! i = Some d -> statusActive d = true ->
            overlapsSpec at_ (at_ + dur * 60 * 1000)
              (scheduledAt d) (endTime d) = false).
  { intros i d Hl Ha.
    destruct (overlapsSpec _ _ _ _) eqn:Ho; [| done].
    specialize (Hc i d Hl).
    by rewrite (overlap_is_reported _ _ i d Ha Ho) in Hc. }
  intros i1 i2 d1 d2 H1 H2 Hne A1 A2.
  destruct (decide (i1 = newObjectId c)) as [->|N1];
    destruct (decide (i2 = newObjectId c)) as [->|N2]; [done | | |].
  - rewrite lookup_insert_eq in H1. rewrite lookup_insert_ne in H2 by done.
    injection H1 as <-. by apply (Hnew i2).
  - rewrite lookup_insert_eq in H2. rewrite lookup_insert_ne in H1 by done.
    injection H2 as <-. rewrite overlapsSpec_sym. by apply (Hnew i1).
  - rewrite lookup_insert_ne in H1, H2 by done. by apply (Hex i1 i2).
Qed.

Lemma findOwned_Some c id u d :
  findOwned c id u = Some d <-> c !! id = Some d /\ Interview.user d = u.
Proof.
  unfold findOwned. destruct (c !! id) as [x|].
  - case_bool_decide as Hu; split.
    + intros [= ->]. by split.
    + by intros [[= ->] _].
    + discriminate.
    + intros [[= ->] Hd]. by destruct Hu.
  - split; [discriminate | by intros [? _]].
Qed.

Lemma findOwned_None c id u :
  findOwned c id u = None <->
  c !! id = None \/ exists d, c !! id = Some d /\ Interview.user d <> u.
Proof.
  unfold findOwned. destruct (c !! id) as [x|].
  - case_bool_decide as Hu; split.
    + discriminate.
    + intros [Hn|(d & [= ->] & Hd)]; [discriminate | by destruct Hd].
    + intros _. right. by exists x.
    + done.
  - split; [by left | done].
Qed.

Lemma cleanup_lookup now (c : Interview.Collection) i :
  snd (cleanupExpiredInterviews now c) !! i
  = (fun d => if expiredQuery now d then set_status expired d else d)
      <$> c !! i.
Proof. unfold cleanupExpiredInterviews, updateMany. simpl. apply lookup_fmap. Qed.

Lemma cleanup_exclusive now c :
  exclusive c -> exclusive (snd (cleanupExpiredInterviews now c)).
Proof.
  apply exclusive_shrink. intros i d' Hl Ha.
  rewrite cleanup_lookup in Hl.
  destruct (c !! i) as [d|] eqn:E; [| done]. simpl in Hl.
  exists d. destruct (expiredQuery now d); inversion Hl; subst d'; done.
Qed.

Lemma serve_exclusive c a : exclusive c -> exclusive (serve c a).
Proof.
  intros Hex. unfold serve. destruct (at_request a) as [u b|id u|id u|id u n|id u|u|].
  - by apply schedule_exclusive.
  - unfold cancel. destruct (findOwned c id u) as [d|] eqn:E; [| done].
    case_bool_decide; [done |]. simpl.
    revert Hex. apply exclusive_shrink. intros i d' Hl Ha.
    apply lookup_delete_Some in Hl as [_ Hl]. by exists d'.
  - unfold start. destruct (findOwned c id u) as [d|] eqn:E; [| done].
    apply findOwned_Some in E as [E _].
    destruct (0 <? _); [done |]. destruct (_ <=? 0); [done |].
    case_bool_decide as Hs; [| done]. simpl.
    revert Hex. apply exclusive_shrink. intros i d' Hl Ha.
    destruct (decide (i = id)) as [->|Hne].
    + rewrite lookup_insert_eq in Hl. inversion Hl; subst d'.
      exists d. repeat split; [done |]. apply statusActive_iff. by left.
    + rewrite lookup_insert_ne in Hl by done. by exists d'.
  - unfold complete. destruct (findOwned c id u) as [d|] eqn:E; [| done].
    apply findOwned_Some in E as [E _].
    case_bool_decide as Hs; [| done]. simpl.
    revert Hex. apply exclusive_shrink. intros i d' Hl Ha.
    destruct (decide (i = id)) as [->|Hne].
    + rewrite lookup_insert_eq in Hl. inversion Hl; subst d'.
      destruct (truthy n); apply statusActive_iff in Ha as [Ha|Ha];
        discriminate.
    + rewrite lookup_insert_ne in Hl by done. by exists d'.
  - done.
  - unfold myInterviews.
    pose proof (cleanup_exclusive (at_now a) c Hex) as H.
    by destruct (cleanupExpiredInterviews (at_now a) c).
  - unfold cleanup.
    pose proof (cleanup_exclusive (at_now a) c Hex) as H.
    by destruct (cleanupExpiredInterviews (at_now a) c).
Qed.

Lemma run_exclusive c history : exclusive c -> exclusive (run c history).
Proof.
  unfold run. revert c.
  induction history as [|a history IH]; intros c Hex; [done |].
  simpl. apply IH. by apply serve_exclusive.
Qed.

(** The handler once its first three guards have passed. *)
Lemma schedule_guards_passed jobs (c : Interview.Collection) u jobId job at_
    dur now :
  jobs !! jobId = Some job -> hasApplied job u = true -> now < at_ ->
  schedule jobs c u (mkScheduleBody (Some jobId) (Some at_) dur) now
  = match checkTimeConflict c at_ (default 10 dur) None with
    | Some _ => (SlotConflict, c)
    | None =>
        let interview := create u jobId at_ (default 10 dur) ai_interview in
        (mkResponse 201 true "Interview scheduled successfully"
           (ScheduledData (newObjectId c) interview
              (timeUntilStart now interview)),
         <[newObjectId c := interview]> c)
    end.
Proof.
  intros Hjob Happ Hfut. unfold schedule, Job.findById. simpl.
  rewrite Hjob, Happ. simpl.
  destruct (Z.leb_spec at_ now) as [?|_]; [lia |].
  by destruct dur.
Qed.

(** C1, as amended.  The conflict check of [POST /schedule] runs the query
    over every interview in status scheduled or in-progress, whoever the
    candidate is.  (1) Once the job, application and future-time guards
    pass, the reply is SlotConflict exactly when the query matches some
    stored interview.  (2) In particular an overlapping active booking of
    any candidate, the caller or another, makes the call fail with
    SlotConflict and changes nothing.  (3) So the call creates an interview
    only when no interview in status scheduled or in-progress of the
    collection its check read, of any candidate, overlaps the requested
    slot. *)
Theorem schedule_conflict_pool_all_candidates :
  forall jobs (c : Interview.Collection) userId jobId job at_ dur now,
    jobs !! jobId = Some job -> hasApplied job userId = true -> now < at_ ->
    let body := mkScheduleBody (Some jobId) (Some at_) dur in
    let e1 := at_ + default 10 dur * 60 * 1000 in
    (fst (schedule jobs c userId body now) = SlotConflict <->
     exists id d, c !! id = Some d /\ conflictQuery at_ e1 None id d = true)
    /\ (forall id d, c !! id = Some d -> statusActive d = true ->
          overlapsSpec at_ e1 (scheduledAt d) (endTime d) = true ->
          schedule jobs c userId body now = (SlotConflict, c))
    /\ (success (fst (schedule jobs c userId body now)) = true ->
        forall id d, c !! id = Some d -> statusActive d = true ->
          overlapsSpec at_ e1 (scheduledAt d) (endTime d) = false).
Proof.
  intros jobs c u jobId job at_ dur now Hjob Happ Hfut body e1.
  pose proof (schedule_guards_passed jobs c u jobId job at_ dur now
                Hjob Happ Hfut) as Hred.
  fold body in Hred. rewrite Hred. unfold e1.
  rewrite <- checkTimeConflict_is_Some.
  assert (Hblock : forall id d, c !! id = Some d -> statusActive d = true ->
            overlapsSpec at_ (at_ + default 10 dur * 60 * 1000)
              (scheduledAt d) (endTime d) = true ->
            is_Some (checkTimeConflict c at_ (default 10 dur) None)).
  { intros id d Hl Ha Ho.
    apply checkTimeConflict_is_Some. exists id, d. split; [done |].
    by apply overlap_is_reported. }
  split; [| split].
  - destruct (checkTimeConflict c at_ (default 10 dur) None); simpl.
    + split; [by eexists | done].
    + split; [discriminate | by intros [? ?]].
  - intros id d Hl Ha Ho.
    by destruct (Hblock id d Hl Ha Ho) as [x ->].
  - intros Hok id d Hl Ha.
    destruct (overlapsSpec _ _ _ _) eqn:Ho; [| done].
    destruct (Hblock id d Hl Ha Ho) as [x Hx].
    rewrite Hx in Hok. discriminate.
Qed.

(** Candidate 2 asks for [[301000,901000)] while candidate 1 holds [[1000,601000)]. *)
Lemma schedule_conflict_pool_all_candidates_witness :
  sampleJobs !! 7%nat
    = Some (Job.mk [Job.mkApplication 1; Job.mkApplication 2])
  /\ hasApplied (Job.mk [Job.mkApplication 1; Job.mkApplication 2]) 2 = true
  /\ 0 < 301000
  /\ bookedBy1 1000 None !! 0%nat = Some (create 1 7 1000 10 ai_interview)
  /\ schedule sampleJobs (bookedBy1 1000 None) 2 (bodyFor 301000 None) 0
     = (SlotConflict, bookedBy1 1000 None).
Proof.
  split; [reflexivity |]. split; [reflexivity |]. split; [lia |].
  split; [reflexivity |].
  destruct (schedule_conflict_pool_all_candidates sampleJobs
              (bookedBy1 1000 None) 2%nat 7%nat
              (Job.mk [Job.mkApplication 1; Job.mkApplication 2])
              301000 None 0) as (_ & Hblock & _);
    [reflexivity | reflexivity | lia |].
  apply (Hblock 0%nat (create 1 7 1000 10 ai_interview));
    reflexivity.
Defined.

(** C1, counterexample.  Candidate 1 holds the only booking, at instant
    1000 for 10 minutes.  Candidate 2, who has applied to the job and has
    no interview at all, asks for the same instant and is refused with
    SlotConflict. *)
Lemma schedule_blocked_by_other_candidate :
  bookedBy1 1000 None = {[ 0%nat := create 1 7 1000 10 ai_interview ]}
  /\ 1%nat <> 2%nat
  /\ hasApplied (Job.mk [Job.mkApplication 1; Job.mkApplication 2]) 2 = true
  /\ schedule sampleJobs (bookedBy1 1000 None) 2 (bodyFor 1000 None) 0
     = (SlotConflict, bookedBy1 1000 None).
Proof.
  split; [vm_compute; reflexivity |]. split; [lia |].
  split; vm_compute; reflexivity.
Qed.

(** ** The start transition *)

(** The handler on an interview of the caller: the three guards in the
    order of the source. *)
Lemma start_owned (c : Interview.Collection) id u d now :
  c !! id = Some d -> Interview.user d = u ->
  start c id u now
  = if 0 <? scheduledAt d - now then (TooEarly (scheduledAt d - now), c)
    else if endTime d - now <=? 0 then (WindowExpired, c)
    else if negb (bool_decide (status d = scheduled)) then (CannotStart, c)
    else
      let d' := set_startedAt (Some now) (set_status in_progress d) in
      (ok "Interview started successfully"
         (StartedData id (timeRemaining now d') (duration d')),
       <[id := d']> c).
Proof.
  intros Hl Hu. unfold start.
  assert (E : findOwned c id u = Some d) by by apply findOwned_Some.
  by rewrite E.
Qed.

Lemma start_too_early (c : Interview.Collection) id u d now :
  c !! id = Some d -> Interview.user d = u -> now < scheduledAt d ->
  start c id u now = (TooEarly (scheduledAt d - now), c).
Proof.
  intros Hl Hu Hlt. rewrite (start_owned c id u d now Hl Hu).
  destruct (Z.ltb_spec 0 (scheduledAt d - now)); [done | lia].
Qed.

Lemma start_window_expired (c : Interview.Collection) id u d now :
  c !! id = Some d -> Interview.user d = u ->
  scheduledAt d <= now -> endTime d <= now ->
  start c id u now = (WindowExpired, c).
Proof.
  intros Hl Hu H1 H2. rewrite (start_owned c id u d now Hl Hu).
  destruct (Z.ltb_spec 0 (scheduledAt d - now)); [lia |].
  destruct (Z.leb_spec (endTime d - now) 0); [done | lia].
Qed.

Lemma start_in_window (c : Interview.Collection) id u d now :
  c !! id = Some d -> Interview.user d = u ->
  scheduledAt d <= now < endTime d ->
  start c id u now
  = if bool_decide (status d = scheduled) then
      (ok "Interview started successfully"
         (StartedData id (duration d * 60 * 1000) (duration d)),
       <[id := set_startedAt (Some now) (set_status in_progress d)]> c)
    else (CannotStart, c).
Proof.
  intros Hl Hu Hw. rewrite (start_owned c id u d now Hl Hu).
  destruct (Z.ltb_spec 0 (scheduledAt d - now)); [lia |].
  destruct (Z.leb_spec (endTime d - now) 0); [lia |].
  case_bool_decide; [| done]. simpl.
  unfold timeRemaining. simpl.
  unfold endTime in *. do 3 f_equal. lia.
Qed.

(** C3, as amended.  For an interview in status scheduled owned by the
    caller: start succeeds exactly when [scheduledAt <= now < endTime], and
    then stores status in-progress and [startedAt = now], every other field
    and every other interview unchanged; before [scheduledAt] it replies
    TooEarly with [timeUntilStart = scheduledAt - now]; at or after
    [endTime], and not before [scheduledAt], it replies WindowExpired; a
    failure changes nothing. *)
Theorem start_scheduled_interview
    (c : Interview.Collection) (id u : ObjectId) (d : Interview.t)
    (now : Instant) :
  c !! id = Some d -> Interview.user d = u -> status d = scheduled ->
  (success (fst (start c id u now)) = true <->
   scheduledAt d <= now < endTime d)
  /\ (scheduledAt d <= now < endTime d ->
      start c id u now
      = (ok "Interview started successfully"
           (StartedData id (duration d * 60 * 1000) (duration d)),
         <[id := mk (Interview.user d) (job d) (scheduledAt d) (duration d)
                   in_progress (type d) (meetingRoom d) (notes d)
                   (Some now) (completedAt d)]> c))
  /\ (now < scheduledAt d ->
      start c id u now = (TooEarly (scheduledAt d - now), c))
  /\ (scheduledAt d <= now -> endTime d <= now ->
      start c id u now = (WindowExpired, c))
  /\ (success (fst (start c id u now)) = false ->
      snd (start c id u now) = c).
Proof.
  intros Hl Hu Hs.
  assert (Hin : scheduledAt d <= now < endTime d ->
      start c id u now
      = (ok "Interview started successfully"
           (StartedData id (duration d * 60 * 1000) (duration d)),
         <[id := mk (Interview.user d) (job d) (scheduledAt d) (duration d)
                   in_progress (type d) (meetingRoom d) (notes d)
                   (Some now) (completedAt d)]> c)).
  { intros Hw. rewrite (start_in_window c id u d now Hl Hu Hw).
    by rewrite bool_decide_eq_true_2. }
  pose proof (start_too_early c id u d now Hl Hu) as Hearly.
  pose proof (start_window_expired c id u d now Hl Hu) as Hlate.
  assert (Hcases : now < scheduledAt d
                   \/ (scheduledAt d <= now /\ endTime d <= now)
                   \/ scheduledAt d <= now < endTime d) by lia.
  split; [split |]; [| | split; [done |]; split; [done |]; split; [done |]].
  - intros Hok. destruct Hcases as [H|[[H1 H2]|H]]; [| | done].
    + rewrite Hearly in Hok by done. discriminate.
    + rewrite Hlate in Hok by done. discriminate.
  - intros Hw. by rewrite Hin.
  - intros Hfail. destruct Hcases as [H|[[H1 H2]|H]].
    + by rewrite Hearly.
    + by rewrite Hlate.
    + rewrite Hin in Hfail by done. discriminate.
Qed.

(** The default booking of instant 1000, started at instant 1000. *)
Lemma start_scheduled_interview_witness :
  bookedBy1 1000 None !! 0%nat = Some sampleDoc
  /\ Interview.user sampleDoc = 1%nat
  /\ status sampleDoc = scheduled
  /\ 1000 <= 1000 < endTime sampleDoc
  /\ start (bookedBy1 1000 None) 0 1 1000
     = (ok "Interview started successfully" (StartedData 0 600000 10),
        <[0%nat := mk 1 7 1000 10 in_progress ai_interview None None
                     (Some 1000) None]> (bookedBy1 1000 None)).
Proof.
  split; [reflexivity |]. split; [reflexivity |]. split; [reflexivity |].
  split; [vm_compute; split; [discriminate | reflexivity] |].
  destruct (start_scheduled_interview (bookedBy1 1000 None) 0 1 sampleDoc 1000)
    as (_ & H & _); [reflexivity | reflexivity | reflexivity |].
  apply H. vm_compute. split; [discriminate | reflexivity].
Defined.

(** C3, counterexample.  The handler accepts a booking of instant 600000
    with duration -5, whose [endTime] is 300000.  At instant 400000 the
    interview is in status scheduled and [now >= endTime], yet start
    replies TooEarly, not WindowExpired. *)
Lemma start_too_early_after_endTime :
  bookedBy1 600000 (Some (-5)) !! 0%nat = Some negativeDoc
  /\ Interview.user negativeDoc = 1%nat
  /\ status negativeDoc = scheduled
  /\ endTime negativeDoc <= 400000
  /\ start (bookedBy1 600000 (Some (-5))) 0 1 400000
     = (TooEarly 200000, bookedBy1 600000 (Some (-5)))
  /\ TooEarly 200000 <> WindowExpired.
Proof.
  split; [reflexivity |]. split; [reflexivity |]. split; [reflexivity |].
  split; [vm_compute; discriminate |]. split; [reflexivity | discriminate].
Qed.

(** C10, as amended.  For an interview of the caller in any status the
    time checks come before the status guard, TooEarly first: before
    [scheduledAt] the reply is TooEarly; at or after [endTime], and not
    before [scheduledAt], it is WindowExpired; the status-based refusal is
    returned exactly when [now] lies in [[scheduledAt, endTime)] and the
    status is not scheduled. *)
Theorem start_time_checks_precede_status
    (c : Interview.Collection) (id u : ObjectId) (d : Interview.t)
    (now : Instant) :
  c !! id = Some d -> Interview.user d = u ->
  (now < scheduledAt d ->
   start c id u now = (TooEarly (scheduledAt d - now), c))
  /\ (scheduledAt d <= now -> endTime d <= now ->
      start c id u now = (WindowExpired, c))
  /\ (fst (start c id u now) = CannotStart <->
      scheduledAt d <= now < endTime d /\ status d <> scheduled)
  /\ (scheduledAt d <= now < endTime d -> status d <> scheduled ->
      start c id u now = (CannotStart, c)).
Proof.
  intros Hl Hu.
  pose proof (start_too_early c id u d now Hl Hu) as Hearly.
  pose proof (start_window_expired c id u d now Hl Hu) as Hlate.
  pose proof (start_in_window c id u d now Hl Hu) as Hin.
  split; [done |]. split; [done |]. split; [split |].
  - intros Hr.
    assert (Hcases : now < scheduledAt d
                     \/ (scheduledAt d <= now /\ endTime d <= now)
                     \/ scheduledAt d <= now < endTime d) by lia.
    destruct Hcases as [H|[[H1 H2]|H]].
    + rewrite Hearly in Hr by done. discriminate.
    + rewrite Hlate in Hr by done. discriminate.
    + split; [done |]. intros Hs. rewrite Hin in Hr by done.
      rewrite bool_decide_eq_true_2 in Hr by done. discriminate.
  - intros [Hw Hs]. rewrite Hin by done.
    by rewrite bool_decide_eq_false_2.
  - intros Hw Hs. rewrite Hin by done.
    by rewrite bool_decide_eq_false_2.
Qed.

(** A completed interview: start before, after and inside its window. *)
Lemma start_time_checks_precede_status_witness :
  completedSample !! 0%nat
    = Some (mk 1 7 1000 10 completed ai_interview None (Some "fine"%string)
              (Some 1000) (Some 2000))
  /\ 500 < 1000
  /\ start completedSample 0 1 500 = (TooEarly 500, completedSample)
  /\ start completedSample 0 1 601000 = (WindowExpired, completedSample)
  /\ start completedSample 0 1 3000 = (CannotStart, completedSample).
Proof.
  split; [reflexivity |]. split; [lia |].
  pose proof (fun now => start_time_checks_precede_status completedSample 0 1
                (mk 1 7 1000 10 completed ai_interview None
                   (Some "fine"%string) (Some 1000) (Some 2000)) now
                eq_refl eq_refl) as H.
  split; [apply (H 500); reflexivity |].
  split; [apply (H 601000); vm_compute; discriminate |].
  apply (H 3000); [vm_compute; split; [discriminate | reflexivity] |].
  discriminate.
Defined.

(** C10, counterexample.  The booking of instant 600000 with duration -5
    (end 300000) is swept into status expired at instant 400000.  A start
    attempt at 400000 is at or after [endTime], yet the reply is TooEarly,
    not WindowExpired. *)
Lemma start_expired_too_early_after_endTime :
  sweptNegative !! 0%nat = Some (set_status expired negativeDoc)
  /\ Interview.user (set_status expired negativeDoc) = 1%nat
  /\ endTime (set_status expired negativeDoc) <= 400000
  /\ start sweptNegative 0 1 400000 = (TooEarly 200000, sweptNegative)
  /\ TooEarly 200000 <> WindowExpired.
Proof.
  split; [reflexivity |]. split; [reflexivity |].
  split; [vm_compute; discriminate |]. split; [reflexivity | discriminate].
Qed.

(** ** Completion and cancellation *)

(** C6.  On an interview of the caller, complete succeeds only from status
    in-progress.  It then stores status completed and [completedAt = now],
    and stores the notes when notes are supplied (a non-empty text; an
    absent or empty [notes] leaves the field as it is), every other field
    unchanged.  From any other status it is refused and nothing changes; so
    is a second call after a successful one. *)
Theorem complete_from_in_progress_only
    (c : Interview.Collection) (id u : ObjectId) (d : Interview.t)
    (supplied : option string) (now : Instant) :
  c !! id = Some d -> Interview.user d = u ->
  (success (fst (complete c id u supplied now)) = true <->
   status d = in_progress)
  /\ (status d = in_progress ->
      complete c id u supplied now
      = (ok "Interview completed successfully" NoData,
         <[id := mk (Interview.user d) (job d) (scheduledAt d) (duration d)
                   completed (type d) (meetingRoom d)
                   (if truthy supplied then supplied else notes d)
                   (startedAt d) (Some now)]> c))
  /\ (status d <> in_progress ->
      complete c id u supplied now = (NotInProgress, c))
  /\ (status d = in_progress ->
      forall again now',
        complete (snd (complete c id u supplied now)) id u again now'
        = (NotInProgress, snd (complete c id u supplied now))).
Proof.
  intros Hl Hu.
  assert (E : findOwned c id u = Some d) by by apply findOwned_Some.
  assert (Hyes : status d = in_progress ->
      complete c id u supplied now
      = (ok "Interview completed successfully" NoData,
         <[id := mk (Interview.user d) (job d) (scheduledAt d) (duration d)
                   completed (type d) (meetingRoom d)
                   (if truthy supplied then supplied else notes d)
                   (startedAt d) (Some now)]> c)).
  { intros Hs. unfold complete. rewrite E.
    rewrite bool_decide_eq_true_2 by done. simpl.
    by destruct (truthy supplied). }
  assert (Hno : status d <> in_progress ->
      complete c id u supplied now = (NotInProgress, c)).
  { intros Hs. unfold complete. rewrite E.
    by rewrite bool_decide_eq_false_2. }
  split; [split |]; [| | split; [done |]; split; [done |]].
  - intros Hok. destruct (decide (status d = in_progress)); [done |].
    rewrite Hno in Hok by done. discriminate.
  - intros Hs. by rewrite Hyes.
  - intros Hs again now'. rewrite Hyes by done. simpl.
    unfold complete, findOwned. rewrite lookup_insert_eq. simpl.
    by rewrite bool_decide_eq_true_2.
Qed.

(** The started booking is completed with notes; a second call is refused. *)
Lemma complete_from_in_progress_only_witness :
  startedSample !! 0%nat
    = Some (mk 1 7 1000 10 in_progress ai_interview None None (Some 1000) None)
  /\ complete startedSample 0 1 (Some "fine"%string) 2000
     = (ok "Interview completed successfully" NoData,
        <[0%nat := mk 1 7 1000 10 completed ai_interview None
                     (Some "fine"%string) (Some 1000) (Some 2000)]>
          startedSample)
  /\ complete completedSample 0 1 (Some "again"%string) 3000
     = (NotInProgress, completedSample).
Proof.
  split; [reflexivity |].
  destruct (complete_from_in_progress_only startedSample 0 1
              (mk 1 7 1000 10 in_progress ai_interview None None
                 (Some 1000) None)
              (Some "fine"%string) 2000 eq_refl eq_refl)
    as (_ & Hyes & _ & Htwice).
  split; [apply Hyes; reflexivity |].
  apply (Htwice eq_refl (Some "again"%string) 3000).
Defined.

(** C7.  On an interview of the caller, cancel is refused with nothing
    changed when the status is completed; in every other status the
    document is removed from the collection (no status is written), and no
    other document is touched. *)
Theorem cancel_deletes_unless_completed
    (c : Interview.Collection) (id u : ObjectId) (d : Interview.t) :
  c !! id = Some d -> Interview.user d = u ->
  (status d = completed -> cancel c id u = (CannotCancelCompleted, c))
  /\ (status d <> completed ->
      cancel c id u = (ok "Interview cancelled successfully" NoData,
                       delete id c)
      /\ snd (cancel c id u) !! id = None
      /\ forall j, j <> id -> snd (cancel c id u) !! j = c !! j).
Proof.
  intros Hl Hu.
  assert (E : findOwned c id u = Some d) by by apply findOwned_Some.
  unfold cancel. rewrite E. split; intros Hs.
  - by rewrite bool_decide_eq_true_2.
  - rewrite bool_decide_eq_false_2 by done. simpl.
    split; [done |]. split; [apply lookup_delete_eq |].
    intros j Hj. by apply lookup_delete_ne.
Qed.

(** A scheduled booking is deleted; a completed one is kept. *)
Lemma cancel_deletes_unless_completed_witness :
  bookedBy1 1000 None !! 0%nat = Some sampleDoc
  /\ status sampleDoc <> completed
  /\ cancel (bookedBy1 1000 None) 0 1
     = (ok "Interview cancelled successfully" NoData,
        delete 0%nat (bookedBy1 1000 None))
  /\ cancel completedSample 0 1 = (CannotCancelCompleted, completedSample).
Proof.
  split; [reflexivity |]. split; [discriminate |]. split.
  - destruct (cancel_deletes_unless_completed (bookedBy1 1000 None) 0 1
                sampleDoc eq_refl eq_refl) as [_ H].
    apply H. discriminate.
  - destruct (cancel_deletes_unless_completed completedSample 0 1
                (mk 1 7 1000 10 completed ai_interview None
                   (Some "fine"%string) (Some 1000) (Some 2000))
                eq_refl eq_refl) as [H _].
    apply H. reflexivity.
Defined.

(** ** Owner scoping *)

(** C9.  When the interview id is not in the collection, or is the id of
    an interview of another candidate, start, complete, cancel and get all
    give the same reply NotFound (status 404, never an authorization
    error) and change nothing: the two cases cannot be told apart. *)
Theorem not_owned_is_not_found
    (c : Interview.Collection) (id u : ObjectId) (supplied : option string)
    (now : Instant) :
  c !! id = None \/ (exists d, c !! id = Some d /\ Interview.user d <> u) ->
  start c id u now = (NotFound, c)
  /\ complete c id u supplied now = (NotFound, c)
  /\ cancel c id u = (NotFound, c)
  /\ get c id u now = NotFound
  /\ code NotFound = 404%nat.
Proof.
  intros H. apply findOwned_None in H.
  unfold start, complete, cancel, get. by rewrite H.
Qed.

(** Candidate 2 asks for an absent id, then for the booking of candidate 1. *)
Lemma not_owned_is_not_found_witness :
  (bookedBy1 1000 None !! 5%nat = None
   /\ start (bookedBy1 1000 None) 5 2 1000 = (NotFound, bookedBy1 1000 None))
  /\ (bookedBy1 1000 None !! 0%nat = Some sampleDoc
      /\ Interview.user sampleDoc <> 2%nat
      /\ start (bookedBy1 1000 None) 0 2 1000
         = (NotFound, bookedBy1 1000 None)
      /\ get (bookedBy1 1000 None) 0 2 1000 = NotFound).
Proof.
  split.
  - split; [reflexivity |].
    apply (not_owned_is_not_found (bookedBy1 1000 None) 5 2 None 1000).
    left. reflexivity.
  - split; [reflexivity |]. split; [discriminate |].
    destruct (not_owned_is_not_found (bookedBy1 1000 None) 0 2 None 1000)
      as (Hs & _ & _ & Hg & _); [| by split].
    right. exists sampleDoc. split; [reflexivity | discriminate].
Defined.

(** ** The guard chain of schedule *)

Lemma hasApplied_iff job u :
  hasApplied job u = true <->
  exists app, In app (Job.applications job) /\ Job.user app = u.
Proof.
  unfold hasApplied. rewrite existsb_exists.
  split; intros (app & Hin & H); exists app; (split; [done |]).
  - by apply bool_decide_eq_true in H.
  - by apply bool_decide_eq_true.
Qed.

(** C5.  With [jobId] and [scheduledAt] present in the request, schedule
    checks, in this order and stopping at the first failure: that the job
    exists (JobNotFound), that the caller is among its applications
    (NotApplied), that [scheduledAt] is strictly after [now] (InvalidTime,
    also when [scheduledAt = now]), that the conflict query matches no
    interview (SlotConflict).  A failure changes nothing.  When all four
    pass, and only then, one interview in status scheduled is added. *)
Theorem schedule_guard_chain
    (jobs : Job.Collection) (c : Interview.Collection) (u jobId : ObjectId)
    (at_ : Instant) (dur : option Z) (now : Instant) :
  let body := mkScheduleBody (Some jobId) (Some at_) dur in
  let e1 := at_ + default 10 dur * 60 * 1000 in
  (jobs !! jobId = None -> schedule jobs c u body now = (JobNotFound, c))
  /\ (forall job, jobs !! jobId = Some job ->
      (hasApplied job u = false ->
       schedule jobs c u body now = (NotApplied, c))
      /\ (hasApplied job u = true -> at_ <= now ->
          schedule jobs c u body now = (InvalidTime, c))
      /\ (hasApplied job u = true -> now < at_ ->
          (exists id d, c !! id = Some d
             /\ conflictQuery at_ e1 None id d = true) ->
          schedule jobs c u body now = (SlotConflict, c))
      /\ (hasApplied job u = true -> now < at_ ->
          (forall id d, c !! id = Some d ->
             conflictQuery at_ e1 None id d = false) ->
          exists id,
            c !! id = None
            /\ schedule jobs c u body now
               = (mkResponse 201 true "Interview scheduled successfully"
                    (ScheduledData id
                       (create u jobId at_ (default 10 dur) ai_interview)
                       (at_ - now)),
                  <[id := create u jobId at_ (default 10 dur) ai_interview]> c)
            /\ status (create u jobId at_ (default 10 dur) ai_interview)
               = scheduled))
  /\ (success (fst (schedule jobs c u body now)) = true ->
      exists job, jobs !! jobId = Some job /\ hasApplied job u = true
        /\ now < at_
        /\ forall id d, c !! id = Some d ->
             conflictQuery at_ e1 None id d = false).
Proof.
  intros body e1.
  assert (Hnone : jobs !! jobId = None ->
            schedule jobs c u body now = (JobNotFound, c)).
  { intros Hj. unfold schedule, body, Job.findById. simpl. by rewrite Hj. }
  assert (Hna : forall job, jobs !! jobId = Some job ->
            hasApplied job u = false ->
            schedule jobs c u body now = (NotApplied, c)).
  { intros job Hj Ha. unfold schedule, body, Job.findById. simpl.
    by rewrite Hj, Ha. }
  assert (Hpast : forall job, jobs !! jobId = Some job ->
            hasApplied job u = true -> at_ <= now ->
            schedule jobs c u body now = (InvalidTime, c)).
  { intros job Hj Ha Ht. unfold schedule, body, Job.findById. simpl.
    rewrite Hj, Ha. simpl.
    destruct (Z.leb_spec at_ now); [by destruct dur | lia]. }
  pose proof (fun job => schedule_guards_passed jobs c u jobId job at_ dur now)
    as Hpass. fold body in Hpass.
  split; [done |]. split.
  - intros job Hj. split; [by apply Hna |]. split; [by apply Hpast |]. split.
    + intros Ha Ht Hex. rewrite (Hpass job) by done.
      apply checkTimeConflict_is_Some in Hex. by destruct Hex as [x ->].
    + intros Ha Ht Hall. rewrite (Hpass job) by done.
      apply checkTimeConflict_None in Hall. rewrite Hall. simpl.
      exists (newObjectId c). split; [apply newObjectId_fresh |].
      split; [| done]. unfold timeUntilStart. simpl.
      do 3 f_equal. lia.
  - intros Hok. destruct (jobs !! jobId) as [job|] eqn:Hj.
    2:{ rewrite Hnone in Hok by done. discriminate. }
    exists job. split; [done |].
    destruct (hasApplied job u) eqn:Ha.
    2:{ rewrite (Hna job) in Hok by done. discriminate. }
    split; [done |].
    destruct (Z.le_gt_cases at_ now) as [Ht|Ht].
    { rewrite (Hpast job) in Hok by done. discriminate. }
    split; [lia |].
    apply checkTimeConflict_None. rewrite (Hpass job) in Hok by (done || lia).
    by destruct (checkTimeConflict c at_ (default 10 dur) None).
Qed.

(** Each refusal of the chain, with later guards failing as well. *)
Lemma schedule_guard_chain_witness :
  (sampleJobs !! 8%nat = None
   /\ schedule sampleJobs (bookedBy1 1000 None) 3
        (mkScheduleBody (Some 8%nat) (Some 0) None) 500
      = (JobNotFound, bookedBy1 1000 None))
  /\ (hasApplied (Job.mk [Job.mkApplication 1; Job.mkApplication 2]) 3 = false
      /\ schedule sampleJobs (bookedBy1 1000 None) 3 (bodyFor 0 None) 500
         = (NotApplied, bookedBy1 1000 None))
  /\ (500 <= 500
      /\ schedule sampleJobs (bookedBy1 1000 None) 1 (bodyFor 500 None) 500
         = (InvalidTime, bookedBy1 1000 None))
  /\ (500 < 1000
      /\ schedule sampleJobs (bookedBy1 1000 None) 1 (bodyFor 1000 None) 500
         = (SlotConflict, bookedBy1 1000 None)).
Proof.
  split; [| split; [| split]].
  - split; [reflexivity |].
    apply (schedule_guard_chain sampleJobs (bookedBy1 1000 None) 3 8 0 None 500).
    reflexivity.
  - split; [reflexivity |].
    destruct (schedule_guard_chain sampleJobs (bookedBy1 1000 None)
                3 7 0 None 500) as (_ & H & _).
    destruct (H _ eq_refl) as (Hna & _). apply Hna. reflexivity.
  - split; [lia |].
    destruct (schedule_guard_chain sampleJobs (bookedBy1 1000 None)
                1 7 500 None 500) as (_ & H & _).
    destruct (H _ eq_refl) as (_ & Hpast & _).
    apply Hpast; [reflexivity | lia].
  - split; [lia |].
    destruct (schedule_guard_chain sampleJobs (bookedBy1 1000 None)
                1 7 1000 None 500) as (_ & H & _).
    destruct (H _ eq_refl) as (_ & _ & Hconf & _).
    apply Hconf; [reflexivity | lia |].
    exists 0%nat, sampleDoc. split; reflexivity.
Defined.

(** ** Durations *)

(** C8, as amended.  An interview created by schedule stores the duration
    of the request as it is, 10 when the request has none; no check is
    made of its sign.  Its [endTime] is after its [scheduledAt] exactly
    when that duration is positive, as it is when the request has none. *)
Theorem schedule_stores_requested_duration
    (jobs : Job.Collection) (c : Interview.Collection) (u : ObjectId)
    (body : ScheduleBody) (now : Instant) (id : ObjectId) (d : Interview.t) :
  c !! id = None ->
  snd (schedule jobs c u body now) !! id = Some d ->
  duration d = default 10 (body_duration body)
  /\ Some (scheduledAt d) = body_scheduledAt body
  /\ status d = scheduled
  /\ (scheduledAt d < endTime d <-> 0 < duration d)
  /\ (body_duration body = None -> scheduledAt d < endTime d).
Proof.
  intros Hnew Hl.
  assert (Hd : exists jobId at_,
            body_scheduledAt body = Some at_
            /\ d = create u jobId at_ (default 10 (body_duration body))
                     ai_interview).
  { unfold schedule in Hl.
    destruct (body_jobId body) as [jobId|]; [| simpl in Hl; congruence].
    destruct (body_scheduledAt body) as [at_|]; [| simpl in Hl; congruence].
    destruct (Job.findById jobId jobs) as [job|]; [| simpl in Hl; congruence].
    destruct (negb (hasApplied job u)); [simpl in Hl; congruence |].
    destruct (at_ <=? now); [simpl in Hl; congruence |].
    destruct (checkTimeConflict _ _ _ _); [simpl in Hl; congruence |].
    simpl in Hl. exists jobId, at_. split; [done |].
    destruct (decide (id = newObjectId c)) as [->|Hne].
    - rewrite lookup_insert_eq in Hl. injection Hl as <-.
      by destruct (body_duration body).
    - rewrite lookup_insert_ne in Hl by done. congruence. }
  destruct Hd as (jobId & at_ & Hat & ->). unfold endTime. simpl.
  split; [done |]. split; [done |]. split; [done |]. split; [lia |].
  intros ->. simpl. lia.
Qed.

(** A request without duration on the empty collection. *)
Lemma schedule_stores_requested_duration_witness :
  (∅ : gmap nat Interview.t) !! 0%nat = None
  /\ snd (schedule sampleJobs ∅ 1 (bodyFor 1000 None) 0) !! 0%nat
     = Some sampleDoc
  /\ duration sampleDoc = 10
  /\ scheduledAt sampleDoc < endTime sampleDoc.
Proof.
  split; [reflexivity |]. split; [reflexivity |].
  destruct (schedule_stores_requested_duration sampleJobs ∅ 1
              (bodyFor 1000 None) 0 0 sampleDoc)
    as (Hd & _ & _ & _ & He); [reflexivity | reflexivity |].
  split; [exact Hd | apply He; reflexivity].
Defined.

(** C8, counterexample.  A request with duration 0 passes every guard; the
    stored interview has a duration that is not positive and an [endTime]
    equal to its [scheduledAt]. *)
Lemma schedule_accepts_zero_duration :
  schedule sampleJobs ∅ 1 (bodyFor 1000 (Some 0)) 0
  = (mkResponse 201 true "Interview scheduled successfully"
       (ScheduledData 0 zeroDoc 1000),
     {[ 0%nat := zeroDoc ]})
  /\ duration zeroDoc = 0
  /\ endTime zeroDoc = scheduledAt zeroDoc.
Proof. split; [vm_compute; reflexivity |]. split; reflexivity. Qed.

(** ** The expiry sweep *)

Lemma expiredQuery_iff now d :
  expiredQuery now d = true <-> status d = scheduled /\ endTime d < now.
Proof.
  unfold expiredQuery. rewrite exprEnd_endTime.
  rewrite andb_true_iff, bool_decide_eq_true, Z.ltb_lt. tauto.
Qed.

Lemma expiredQuery_swept now d :
  expiredQuery now (if expiredQuery now d then set_status expired d else d)
  = false.
Proof.
  destruct (expiredQuery now d) eqn:E; [| exact E].
  reflexivity.
Qed.

Lemma size_filter_none {A} (P : nat * A -> Prop) `{!forall x, Decision (P x)}
    (m : gmap nat A) :
  (forall i x, m !! i = Some x -> ~ P (i, x)) -> size (filter P m) = 0%nat.
Proof.
  intros Hnone. apply map_size_empty_iff, map_empty. intros i.
  apply map_lookup_filter_None. right. intros x Hx. by apply (Hnone i).
Qed.

(** C4, as amended.  The sweep at instant [now] writes status expired into
    exactly the interviews in status scheduled whose [endTime] is strictly
    before [now]: it changes no other field of them and no other interview
    (one in status scheduled with [endTime = now] stays scheduled), adds and
    removes none, and returns their number as [modifiedCount].  A second
    sweep at the same instant changes nothing and returns 0. *)
Theorem cleanupExpiredInterviews_sweeps_overdue
    (c : Interview.Collection) (now : Instant) :
  (forall id d, c !! id = Some d -> status d = scheduled -> endTime d < now ->
     snd (cleanupExpiredInterviews now c) !! id
     = Some (mk (Interview.user d) (job d) (scheduledAt d) (duration d)
               expired (type d) (meetingRoom d) (notes d) (startedAt d)
               (completedAt d)))
  /\ (forall id d, c !! id = Some d ->
        status d <> scheduled \/ now <= endTime d ->
        snd (cleanupExpiredInterviews now c) !! id = Some d)
  /\ (forall id, c !! id = None ->
        snd (cleanupExpiredInterviews now c) !! id = None)
  /\ modifiedCount (fst (cleanupExpiredInterviews now c))
     = size (filter (fun kv : nat * Interview.t =>
                       status (snd kv) = scheduled /\ endTime (snd kv) < now) c)
  /\ cleanupExpiredInterviews now (snd (cleanupExpiredInterviews now c))
     = (mkResult 0 0, snd (cleanupExpiredInterviews now c)).
Proof.
  split; [| split; [| split; [| split]]].
  - intros id d Hl Hs He. rewrite cleanup_lookup, Hl. simpl.
    assert (E : expiredQuery now d = true) by by apply expiredQuery_iff.
    by rewrite E.
  - intros id d Hl Hno. rewrite cleanup_lookup, Hl. simpl.
    destruct (expiredQuery now d) eqn:E; [| done].
    apply expiredQuery_iff in E as [Hs He]. destruct Hno; [done | lia].
  - intros id Hl. by rewrite cleanup_lookup, Hl.
  - unfold cleanupExpiredInterviews, updateMany. simpl. f_equal.
    apply map_filter_ext. intros i x _. simpl.
    rewrite expiredQuery_iff. split; [tauto |].
    intros [Hs He]. split; [done |].
    intros Heq. apply (f_equal status) in Heq. simpl in Heq. congruence.
  - set (c' := snd (cleanupExpiredInterviews now c)).
    assert (Hc' : forall i x, c' !! i = Some x -> expiredQuery now x = false).
    { intros i x Hx. unfold c' in Hx. rewrite cleanup_lookup in Hx.
      destruct (c !! i) as [d|]; [| done]. simpl in Hx.
      injection Hx as <-. apply expiredQuery_swept. }
    unfold cleanupExpiredInterviews at 1. unfold updateMany. f_equal.
    + f_equal; apply size_filter_none; intros i x Hx; simpl;
        rewrite (Hc' i x Hx); [discriminate | by intros [? _]].
    + apply map_eq. intros i. rewrite lookup_fmap.
      destruct (c' !! i) as [x|] eqn:Hx; [| done]. simpl.
      by rewrite (Hc' i x Hx).
Qed.

(** The default booking, swept one millisecond after its end. *)
Lemma cleanupExpiredInterviews_sweeps_overdue_witness :
  bookedBy1 1000 None !! 0%nat = Some sampleDoc
  /\ status sampleDoc = scheduled
  /\ endTime sampleDoc < 601001
  /\ snd (cleanupExpiredInterviews 601001 (bookedBy1 1000 None)) !! 0%nat
     = Some (mk 1 7 1000 10 expired ai_interview None None None None).
Proof.
  split; [reflexivity |]. split; [reflexivity |]. split; [reflexivity |].
  destruct (cleanupExpiredInterviews_sweeps_overdue (bookedBy1 1000 None)
              601001) as (H & _).
  apply (H 0%nat sampleDoc); reflexivity.
Defined.

(** C4, counterexample.  At the instant 601000 the default booking of
    instant 1000 is in status scheduled and [now >= endTime] holds, with
    equality; the sweep transitions nothing and leaves it scheduled. *)
Lemma cleanupExpiredInterviews_keeps_boundary :
  bookedBy1 1000 None !! 0%nat = Some sampleDoc
  /\ status sampleDoc = scheduled
  /\ endTime sampleDoc <= 601000
  /\ cleanupExpiredInterviews 601000 (bookedBy1 1000 None)
     = (mkResult 0 0, bookedBy1 1000 None).
Proof.
  split; [reflexivity |]. split; [reflexivity |].
  split; [vm_compute; discriminate |]. vm_compute. reflexivity.
Qed.

(** * Further properties of the model and the handlers *)

(** ** What a handler does to the collection *)

Lemma schedule_effect jobs (c : Interview.Collection) u body now :
  (success (fst (schedule jobs c u body now)) = false
   /\ snd (schedule jobs c u body now) = c)
  \/ (success (fst (schedule jobs c u body now)) = true
      /\ exists jobId at_,
           body_jobId body = Some jobId /\ body_scheduledAt body = Some at_
           /\ now < at_
           /\ checkTimeConflict c at_ (default 10 (body_duration body)) None
              = None
           /\ snd (schedule jobs c u body now)
              = <[newObjectId c :=
                    create u jobId at_ (default 10 (body_duration body))
                      ai_interview]> c).
Proof.
  unfold schedule.
  assert (Hd : match body_duration body with Some d => d | None => 10 end
               = default 10 (body_duration body))
    by by destruct (body_duration body).
  rewrite Hd.
  destruct (body_jobId body) as [jobId|]; [| by left].
  destruct (body_scheduledAt body) as [at_|]; [| by left].
  destruct (Job.findById jobId jobs) as [job|]; [| by left].
  destruct (negb (hasApplied job u)); [by left |].
  destruct (Z.leb_spec at_ now) as [|Hfut]; [by left |].
  destruct (checkTimeConflict _ _ _ _) eqn:Hc; [by left |].
  right. split; [done |]. by exists jobId, at_.
Qed.

Lemma start_effect (c : Interview.Collection) id u now :
  (success (fst (start c id u now)) = false /\ snd (start c id u now) = c)
  \/ (success (fst (start c id u now)) = true
      /\ exists d, c !! id = Some d /\ Interview.user d = u
           /\ status d = scheduled /\ inSlot now d
           /\ snd (start c id u now) = <[id := started now d]> c).
Proof.
  destruct (findOwned c id u) as [d|] eqn:E.
  - apply findOwned_Some in E as [Hl Hu].
    rewrite (start_owned c id u d now Hl Hu).
    destruct (Z.ltb_spec 0 (scheduledAt d - now)); [by left |].
    destruct (Z.leb_spec (endTime d - now) 0); [by left |].
    case_bool_decide as Hs; [| by left].
    right. split; [done |]. exists d. unfold inSlot.
    repeat split; try done; lia.
  - unfold start. rewrite E. by left.
Qed.

Lemma complete_effect (c : Interview.Collection) id u supplied now :
  (success (fst (complete c id u supplied now)) = false
   /\ snd (complete c id u supplied now) = c)
  \/ (success (fst (complete c id u supplied now)) = true
      /\ exists d, c !! id = Some d /\ Interview.user d = u
           /\ status d = in_progress
           /\ snd (complete c id u supplied now)
              = <[id := finished supplied now d]> c).
Proof.
  unfold complete. destruct (findOwned c id u) as [d|] eqn:E; [| by left].
  apply findOwned_Some in E as [Hl Hu].
  case_bool_decide as Hs; [| by left].
  right. split; [done |]. by exists d.
Qed.

Lemma cancel_effect (c : Interview.Collection) id u :
  (success (fst (cancel c id u)) = false /\ snd (cancel c id u) = c)
  \/ (success (fst (cancel c id u)) = true
      /\ exists d, c !! id = Some d /\ Interview.user d = u
           /\ status d <> completed
           /\ snd (cancel c id u) = delete id c).
Proof.
  unfold cancel. destruct (findOwned c id u) as [d|] eqn:E; [| by left].
  apply findOwned_Some in E as [Hl Hu].
  case_bool_decide as Hs; [by left |].
  right. split; [done |]. by exists d.
Qed.

Lemma myInterviews_snd (c : Interview.Collection) u now :
  snd (myInterviews c u now) = snd (cleanupExpiredInterviews now c).
Proof.
  unfold myInterviews. by destruct (cleanupExpiredInterviews now c).
Qed.

Lemma cleanup_snd (c : Interview.Collection) now :
  snd (cleanup c now) = snd (cleanupExpiredInterviews now c).
Proof. unfold cleanup. by destruct (cleanupExpiredInterviews now c). Qed.

(** Every document of the collection after one request, traced back. *)
Lemma serve_backward (c : Interview.Collection) a id d' :
  serve c a !! id = Some d' ->
  c !! id = Some d'
  \/ (c !! id = None
      /\ exists u j at_ dur, d' = create u j at_ dur ai_interview)
  \/ (exists d, c !! id = Some d /\ status d = scheduled
        /\ inSlot (at_now a) d /\ d' = started (at_now a) d)
  \/ (exists d supplied, c !! id = Some d /\ status d = in_progress
        /\ d' = finished supplied (at_now a) d)
  \/ (exists d, c !! id = Some d /\ status d = scheduled
        /\ endTime d < at_now a /\ d' = set_status expired d).
Proof.
  assert (Hsweep : forall now,
            snd (cleanupExpiredInterviews now c) !! id = Some d' ->
            c !! id = Some d'
            \/ exists d, c !! id = Some d /\ status d = scheduled
                 /\ endTime d < now /\ d' = set_status expired d).
  { intros now Hl. rewrite cleanup_lookup in Hl.
    destruct (c !! id) as [d|]; [| done]. simpl in Hl.
    destruct (expiredQuery now d) eqn:E; injection Hl as <-; [| by left].
    apply expiredQuery_iff in E as [Hs He]. right. by exists d. }
  unfold serve. destruct (at_request a) as [u b|i u|i u|i u n|i u|u|]; intros Hl.
  - destruct (schedule_effect (at_jobs a) c u b (at_now a))
      as [[_ Hs]|[_ (j & t & _ & _ & _ & _ & Hs)]];
      rewrite Hs in Hl; [by left |].
    destruct (decide (id = newObjectId c)) as [->|Hne].
    + rewrite lookup_insert_eq in Hl. injection Hl as <-.
      right. left. split; [apply newObjectId_fresh | by eexists _, _, _, _].
    + rewrite lookup_insert_ne in Hl by done. by left.
  - destruct (cancel_effect c i u) as [[_ Hs]|[_ (d & _ & _ & _ & Hs)]];
      rewrite Hs in Hl; [by left |].
    apply lookup_delete_Some in Hl as [_ Hl]. by left.
  - destruct (start_effect c i u (at_now a))
      as [[_ Hs]|[_ (d & Hd & _ & Hst & Hw & Hs)]];
      rewrite Hs in Hl; [by left |].
    destruct (decide (id = i)) as [->|Hne].
    + rewrite lookup_insert_eq in Hl. injection Hl as <-.
      right. right. left. by exists d.
    + rewrite lookup_insert_ne in Hl by done. by left.
  - destruct (complete_effect c i u n (at_now a))
      as [[_ Hs]|[_ (d & Hd & _ & Hst & Hs)]];
      rewrite Hs in Hl; [by left |].
    destruct (decide (id = i)) as [->|Hne].
    + rewrite lookup_insert_eq in Hl. injection Hl as <-.
      right. right. right. left. by exists d, n.
    + rewrite lookup_insert_ne in Hl by done. by left.
  - by left.
  - rewrite myInterviews_snd in Hl.
    destruct (Hsweep _ Hl) as [?|?]; [by left | by do 4 right].
  - rewrite cleanup_snd in Hl.
    destruct (Hsweep _ Hl) as [?|?]; [by left | by do 4 right].
Qed.

(** Every document of the collection before one request, traced on. *)
Lemma serve_forward (c : Interview.Collection) a id d :
  c !! id = Some d ->
  serve c a !! id = Some d
  \/ (status d <> completed /\ serve c a !! id = None)
  \/ (status d = scheduled /\ inSlot (at_now a) d
      /\ serve c a !! id = Some (started (at_now a) d))
  \/ (status d = in_progress
      /\ exists supplied,
           serve c a !! id = Some (finished supplied (at_now a) d))
  \/ (status d = scheduled /\ endTime d < at_now a
      /\ serve c a !! id = Some (set_status expired d)).
Proof.
  intros Hd.
  assert (Hsweep : forall now,
            snd (cleanupExpiredInterviews now c) !! id = Some d
            \/ (status d = scheduled /\ endTime d < now
                /\ snd (cleanupExpiredInterviews now c) !! id
                   = Some (set_status expired d))).
  { intros now. rewrite cleanup_lookup, Hd. simpl.
    destruct (expiredQuery now d) eqn:E; [| by left].
    apply expiredQuery_iff in E as [Hs He]. by right. }
  unfold serve. destruct (at_request a) as [u b|i u|i u|i u n|i u|u|].
  - destruct (schedule_effect (at_jobs a) c u b (at_now a))
      as [[_ ->]|[_ (j & t & _ & _ & _ & _ & ->)]]; [by left |].
    left. rewrite lookup_insert_ne; [done |].
    intros <-. by rewrite newObjectId_fresh in Hd.
  - destruct (cancel_effect c i u) as [[_ ->]|[_ (d0 & Hd0 & _ & Hst & ->)]];
      [by left |].
    destruct (decide (id = i)) as [->|Hne].
    + right. left. rewrite lookup_delete_eq. split; [congruence | done].
    + left. by rewrite lookup_delete_ne.
  - destruct (start_effect c i u (at_now a))
      as [[_ ->]|[_ (d0 & Hd0 & _ & Hst & Hw & ->)]]; [by left |].
    destruct (decide (id = i)) as [->|Hne].
    + assert (d0 = d) as -> by congruence.
      right. right. left. by rewrite lookup_insert_eq.
    + left. by rewrite lookup_insert_ne.
  - destruct (complete_effect c i u n (at_now a))
      as [[_ ->]|[_ (d0 & Hd0 & _ & Hst & ->)]]; [by left |].
    destruct (decide (id = i)) as [->|Hne].
    + assert (d0 = d) as -> by congruence.
      do 3 right. left. split; [done |]. exists n. by rewrite lookup_insert_eq.
    + left. by rewrite lookup_insert_ne.
  - by left.
  - rewrite myInterviews_snd.
    destruct (Hsweep (at_now a)) as [?|?]; [by left | by do 4 right].
  - rewrite cleanup_snd.
    destruct (Hsweep (at_now a)) as [?|?]; [by left | by do 4 right].
Qed.

(** ** One request at a time *)

(** X1.  A request that leaves an interview in the collection leaves its
    candidate, job, instant, duration, type and meeting room as they were,
    and moves its status, if at all, from scheduled to in-progress, from
    in-progress to completed, or from scheduled to expired. *)
Theorem serve_keeps_booking
    (c : Interview.Collection) (a : Arrival) (id : ObjectId)
    (d d' : Interview.t) :
  c !! id = Some d -> serve c a !! id = Some d' ->
  sameBooking d d' /\ statusStep (status d) (status d').
Proof.
  intros Hd Hd'. unfold sameBooking, statusStep.
  destruct (serve_forward c a id d Hd)
    as [H|[[_ H]|[(Hs & _ & H)|[(Hs & n & H)|(Hs & _ & H)]]]];
    rewrite H in Hd'; [| discriminate | | |]; injection Hd' as <-.
  - split; [done |]. by left.
  - split; [done |]. right. by left.
  - unfold finished. split.
    + by destruct (truthy n).
    + right. right. left. split; [done |]. by destruct (truthy n).
  - split; [done |]. by do 3 right.
Qed.

(** The default booking across its start at instant 1000. *)
Lemma serve_keeps_booking_witness :
  bookedBy1 1000 None !! 0%nat = Some sampleDoc
  /\ serve (bookedBy1 1000 None) (mkArrival ∅ 1000 (ReqStart 0 1)) !! 0%nat
     = Some (started 1000 sampleDoc)
  /\ sameBooking sampleDoc (started 1000 sampleDoc)
  /\ statusStep scheduled in_progress.
Proof.
  split; [reflexivity |]. split; [reflexivity |].
  apply (serve_keeps_booking (bookedBy1 1000 None)
           (mkArrival ∅ 1000 (ReqStart 0 1)) 0 sampleDoc
           (started 1000 sampleDoc)); reflexivity.
Defined.

(** X2.  A completed interview is there for good: whatever requests
    follow, from whichever callers and at whichever instants, the document
    stays in the collection under its id, unchanged. *)
Theorem completed_interview_is_permanent
    (c : Interview.Collection) (id : ObjectId) (d : Interview.t)
    (history : list Arrival) :
  c !! id = Some d -> status d = completed ->
  run c history !! id = Some d.
Proof.
  intros Hd Hs. unfold run. revert c Hd.
  induction history as [|a history IH]; intros c Hd; [done |].
  simpl. apply IH.
  destruct (serve_forward c a id d Hd)
    as [H|[[Hn _]|[(Hs' & _)|[(Hs' & _)|(Hs' & _)]]]];
    [done | done | congruence | congruence | congruence].
Qed.

(** The completed booking survives a cancel by its owner and a sweep. *)
Lemma completed_interview_is_permanent_witness :
  completedSample !! 0%nat
    = Some (finished (Some "fine"%string) 2000 (started 1000 sampleDoc))
  /\ status (finished (Some "fine"%string) 2000 (started 1000 sampleDoc))
     = completed
  /\ run completedSample
       [mkArrival ∅ 3000 (ReqCancel 0 1); mkArrival ∅ 900000 ReqCleanup]
     !! 0%nat
     = Some (finished (Some "fine"%string) 2000 (started 1000 sampleDoc)).
Proof.
  split; [reflexivity |]. split; [reflexivity |].
  apply completed_interview_is_permanent; reflexivity.
Defined.

Lemma lifecycleSound_create u j at_ dur :
  lifecycleSound (create u j at_ dur ai_interview).
Proof. by unfold lifecycleSound. Qed.

(** X3.  In every collection the handlers build from the empty one, the
    optional paths go with the status: a scheduled or expired interview has
    no [startedAt], [completedAt] or [notes]; one in progress has a
    [startedAt] inside its slot and no [completedAt] or [notes]; a
    completed one has a [startedAt] inside its slot and a [completedAt].
    No interview is in status cancelled, every one is of type ai-interview
    without meeting room, and one that was ever started has a positive
    duration. *)
Theorem reachable_lifecycle_sound
    (history : list Arrival) (id : ObjectId) (d : Interview.t) :
  run ∅ history !! id = Some d ->
  lifecycleSound d
  /\ status d <> cancelled
  /\ type d = ai_interview /\ meetingRoom d = None
  /\ (status d = in_progress \/ status d = completed -> 0 < duration d).
Proof.
  intros Hd.
  assert (Hinv : lifecycleSound d /\ type d = ai_interview
                 /\ meetingRoom d = None).
  { revert id d Hd. unfold run.
    set (Inv := fun c : gmap nat Interview.t =>
           forall id d, c !! id = Some d ->
             lifecycleSound d /\ type d = ai_interview
             /\ meetingRoom d = None).
    assert (H0 : Inv ∅) by (intros i x H; by rewrite lookup_empty in H).
    assert (Hstep : forall c a, Inv c -> Inv (serve c a)).
    { intros c a Hc i x' Hx'.
      destruct (serve_backward c a i x' Hx')
        as [H|[[_ (u & j & t & n & ->)]|[(x & Hx & Hs & Hw & ->)
           |[(x & n & Hx & Hs & ->)|(x & Hx & Hs & He & ->)]]]].
      - by apply (Hc i).
      - split; [apply lifecycleSound_create | done].
      - destruct (Hc i x Hx) as (Hl & Ht & Hm). split; [| done].
        unfold lifecycleSound in *. rewrite Hs in Hl. simpl.
        destruct Hl as (_ & Hc' & Hn). split; [| done].
        exists (at_now a). split; [done |]. exact Hw.
      - destruct (Hc i x Hx) as (Hl & Ht & Hm).
        unfold lifecycleSound in Hl. rewrite Hs in Hl.
        destruct Hl as ((s & Hst & Hin) & _ & _).
        unfold finished, lifecycleSound.
        destruct (truthy n); simpl; (split; [| done]);
          (split; [by exists s | by eexists]).
      - destruct (Hc i x Hx) as (Hl & Ht & Hm). split; [| done].
        unfold lifecycleSound in *. by rewrite Hs in Hl. }
    generalize (∅ : gmap nat Interview.t) H0.
    induction history as [|a history IH]; intros c Hc; [exact Hc |].
    simpl. apply IH. by apply Hstep. }
  destruct Hinv as (Hl & Ht & Hm).
  split; [done |]. split; [| split; [done |]; split; [done |]].
  - intros Hs. unfold lifecycleSound in Hl. by rewrite Hs in Hl.
  - unfold lifecycleSound in Hl.
    intros [Hs|Hs]; rewrite Hs in Hl;
      destruct Hl as ((s & _ & Hin) & _); unfold inSlot, endTime in Hin; lia.
Qed.

(** The history that books, starts and completes the default booking. *)
Lemma reachable_lifecycle_sound_witness :
  run ∅ [mkArrival sampleJobs 0 (ReqSchedule 1 (bodyFor 1000 None));
         mkArrival sampleJobs 1000 (ReqStart 0 1);
         mkArrival sampleJobs 2000 (ReqComplete 0 1 (Some "fine"%string))]
    !! 0%nat
  = Some (finished (Some "fine"%string) 2000 (started 1000 sampleDoc))
  /\ 0 < duration (finished (Some "fine"%string) 2000 (started 1000 sampleDoc)).
Proof.
  split; [reflexivity |].
  destruct (reachable_lifecycle_sound
              [mkArrival sampleJobs 0 (ReqSchedule 1 (bodyFor 1000 None));
               mkArrival sampleJobs 1000 (ReqStart 0 1);
               mkArrival sampleJobs 2000
                 (ReqComplete 0 1 (Some "fine"%string))]
              0 (finished (Some "fine"%string) 2000 (started 1000 sampleDoc)))
    as (_ & _ & _ & _ & H); [reflexivity |].
  apply H. right. reflexivity.
Defined.

(** X4.  A reply with [success: false] goes with an unchanged collection,
    in schedule, start, complete and cancel alike: none of them writes
    before its last guard. *)
Theorem refused_request_changes_nothing
    (jobs : Job.Collection) (c : Interview.Collection) (id u : ObjectId)
    (body : ScheduleBody) (supplied : option string) (now : Instant) :
  (success (fst (schedule jobs c u body now)) = false ->
   snd (schedule jobs c u body now) = c)
  /\ (success (fst (start c id u now)) = false ->
      snd (start c id u now) = c)
  /\ (success (fst (complete c id u supplied now)) = false ->
      snd (complete c id u supplied now) = c)
  /\ (success (fst (cancel c id u)) = false -> snd (cancel c id u) = c).
Proof.
  split; [| split; [| split]]; intros Hf.
  - destruct (schedule_effect jobs c u body now) as [[_ H]|[H _]];
      [done | congruence].
  - destruct (start_effect c id u now) as [[_ H]|[H _]]; [done | congruence].
  - destruct (complete_effect c id u supplied now) as [[_ H]|[H _]];
      [done | congruence].
  - destruct (cancel_effect c id u) as [[_ H]|[H _]]; [done | congruence].
Qed.

(** A start before the booked instant, and a booking of a taken slot. *)
Lemma refused_request_changes_nothing_witness :
  success (fst (start (bookedBy1 1000 None) 0 1 500)) = false
  /\ snd (start (bookedBy1 1000 None) 0 1 500) = bookedBy1 1000 None
  /\ success (fst (schedule sampleJobs (bookedBy1 1000 None) 2
                     (bodyFor 1000 None) 0)) = false
  /\ snd (schedule sampleJobs (bookedBy1 1000 None) 2 (bodyFor 1000 None) 0)
     = bookedBy1 1000 None.
Proof.
  destruct (refused_request_changes_nothing sampleJobs (bookedBy1 1000 None)
              0 1 (bodyFor 1000 None) None 500) as (_ & Hstart & _).
  destruct (refused_request_changes_nothing sampleJobs (bookedBy1 1000 None)
              0 2 (bodyFor 1000 None) None 0) as (Hsched & _).
  split; [reflexivity |]. split; [apply Hstart; reflexivity |].
  split; [reflexivity |]. apply Hsched; reflexivity.
Defined.

(** X5.  No request of a caller touches an interview of another candidate:
    after a start, complete or cancel by [u], every document whose [user]
    is not [u] is in the collection as before; and a schedule changes or
    removes no document at all. *)
Theorem other_candidates_untouched
    (jobs : Job.Collection) (c : Interview.Collection) (id u : ObjectId)
    (body : ScheduleBody) (supplied : option string) (now : Instant)
    (j : ObjectId) (d : Interview.t) :
  c !! j = Some d ->
  snd (schedule jobs c u body now) !! j = Some d
  /\ (Interview.user d <> u ->
      snd (start c id u now) !! j = Some d
      /\ snd (complete c id u supplied now) !! j = Some d
      /\ snd (cancel c id u) !! j = Some d).
Proof.
  intros Hd. split.
  - destruct (schedule_effect jobs c u body now)
      as [[_ ->]|[_ (jb & t & _ & _ & _ & _ & ->)]]; [done |].
    rewrite lookup_insert_ne; [done |].
    intros <-. by rewrite newObjectId_fresh in Hd.
  - intros Hu.
    assert (Hne : forall d0, c !! id = Some d0 -> Interview.user d0 = u ->
              j <> id).
    { intros d0 H0 Hu0 ->. congruence. }
    split; [| split].
    + destruct (start_effect c id u now)
        as [[_ ->]|[_ (d0 & H0 & Hu0 & _ & _ & ->)]]; [done |].
      rewrite lookup_insert_ne; [done |]. intros <-. by eapply Hne.
    + destruct (complete_effect c id u supplied now)
        as [[_ ->]|[_ (d0 & H0 & Hu0 & _ & ->)]]; [done |].
      rewrite lookup_insert_ne; [done |]. intros <-. by eapply Hne.
    + destruct (cancel_effect c id u)
        as [[_ ->]|[_ (d0 & H0 & Hu0 & _ & ->)]]; [done |].
      rewrite lookup_delete_ne; [done |]. intros <-. by eapply Hne.
Qed.

(** Candidate 2 tries to cancel the booking of candidate 1. *)
Lemma other_candidates_untouched_witness :
  bookedBy1 1000 None !! 0%nat = Some sampleDoc
  /\ Interview.user sampleDoc <> 2%nat
  /\ snd (cancel (bookedBy1 1000 None) 0 2) !! 0%nat = Some sampleDoc.
Proof.
  split; [reflexivity |]. split; [discriminate |].
  destruct (other_candidates_untouched sampleJobs (bookedBy1 1000 None)
              0 2 (bodyFor 1000 None) None 1000 0 sampleDoc)
    as (_ & H); [reflexivity |].
  apply H. discriminate.
Defined.

(** ** How the handlers compose *)

Lemma serve_once_started (c : Interview.Collection) a id d :
  c !! id = Some d ->
  status d = in_progress \/ status d = completed ->
  cancelsInterview id (Interview.user d) (at_request a) = false ->
  exists d', serve c a !! id = Some d'
    /\ Interview.user d' = Interview.user d
    /\ (status d' = in_progress \/ status d' = completed).
Proof.
  intros Hd Hs Hreq.
  assert (Hsweep : forall now,
            snd (cleanupExpiredInterviews now c) !! id = Some d).
  { intros now. rewrite cleanup_lookup, Hd. simpl.
    destruct (expiredQuery now d) eqn:E; [| done].
    apply expiredQuery_iff in E as [E _]. destruct Hs; congruence. }
  unfold serve. destruct (at_request a) as [u b|i u|i u|i u n|i u|u|].
  - exists d. split; [| done].
    destruct (schedule_effect (at_jobs a) c u b (at_now a))
      as [[_ ->]|[_ (jb & t & _ & _ & _ & _ & ->)]]; [done |].
    rewrite lookup_insert_ne; [done |].
    intros <-. by rewrite newObjectId_fresh in Hd.
  - exists d. split; [| done].
    destruct (cancel_effect c i u) as [[_ ->]|[_ (d0 & H0 & Hu & _ & ->)]];
      [done |].
    rewrite lookup_delete_ne; [done |]. intros ->.
    assert (d0 = d) as -> by congruence. simpl in Hreq.
    by rewrite !bool_decide_eq_true_2 in Hreq.
  - exists d. split; [| done].
    destruct (start_effect c i u (at_now a))
      as [[_ ->]|[_ (d0 & H0 & _ & Hs0 & _ & ->)]]; [done |].
    rewrite lookup_insert_ne; [done |]. intros ->.
    assert (d0 = d) as -> by congruence. destruct Hs; congruence.
  - destruct (complete_effect c i u n (at_now a))
      as [[_ ->]|[_ (d0 & H0 & Hu & _ & ->)]]; [by exists d |].
    destruct (decide (id = i)) as [->|Hne].
    + assert (d0 = d) as -> by congruence.
      exists (finished n (at_now a) d). rewrite lookup_insert_eq.
      split; [done |]. unfold finished.
      destruct (truthy n); simpl; (split; [done | by right]).
    + exists d. by rewrite lookup_insert_ne.
  - by exists d.
  - exists d. by rewrite myInterviews_snd.
  - exists d. by rewrite cleanup_snd.
Qed.

(** X6.  An interview is started at most once: after a successful start,
    and after any requests served since, from any callers at any instants,
    none of which is a cancel of the interview by its candidate, every
    start of it is refused and changes nothing. *)
Theorem start_succeeds_once
    (c : Interview.Collection) (id u : ObjectId) (now : Instant)
    (history : list Arrival) :
  success (fst (start c id u now)) = true ->
  Forall (fun a => cancelsInterview id u (at_request a) = false) history ->
  forall u' now',
    success (fst (start (run (snd (start c id u now)) history) id u' now'))
    = false
    /\ snd (start (run (snd (start c id u now)) history) id u' now')
       = run (snd (start c id u now)) history.
Proof.
  intros Hok Hall u' now'.
  destruct (start_effect c id u now)
    as [[Hf _]|[_ (d & Hd & Hu & Hs & Hw & Heq)]]; [congruence |].
  rewrite Heq.
  assert (Hinv : exists d', run (<[id := started now d]> c) history !! id
                            = Some d'
                   /\ (status d' = in_progress \/ status d' = completed)).
  { assert (H0 : exists d', <[id := started now d]> c !! id = Some d'
                   /\ Interview.user d' = u
                   /\ (status d' = in_progress \/ status d' = completed)).
    { exists (started now d). rewrite lookup_insert_eq.
      split; [done |]. split; [done | by left]. }
    unfold run. generalize (<[id := started now d]> c) H0. clear H0.
    induction Hall as [|a history Ha _ IH]; intros c0 (d' & Hd' & Hu' & Hs').
    - by exists d'.
    - simpl. apply IH. rewrite <- Hu' in Ha.
      destruct (serve_once_started c0 a id d' Hd' Hs' Ha)
        as (d2 & Hd2 & Hu2 & Hs2).
      exists d2. split; [done |]. split; [congruence | done]. }
  destruct Hinv as (d' & Hd' & Hs').
  destruct (start_effect (run (<[id := started now d]> c) history) id u' now')
    as [?|[_ (d1 & Hd1 & _ & Hs1 & _)]]; [done |].
  assert (d1 = d') as -> by congruence.
  destruct Hs'; congruence.
Qed.

(** The default booking is started at 1000; a sweep, a complete and a
    cancel by another candidate later, it is started again. *)
Lemma start_succeeds_once_witness :
  success (fst (start (bookedBy1 1000 None) 0 1 1000)) = true
  /\ success
       (fst (start
               (run startedSample
                  [mkArrival ∅ 1500 ReqCleanup;
                   mkArrival ∅ 2000 (ReqComplete 0 1 None);
                   mkArrival ∅ 2500 (ReqCancel 0 2)])
               0 1 3000)) = false.
Proof.
  split; [reflexivity |].
  apply (start_succeeds_once (bookedBy1 1000 None) 0 1 1000
           [mkArrival ∅ 1500 ReqCleanup;
            mkArrival ∅ 2000 (ReqComplete 0 1 None);
            mkArrival ∅ 2500 (ReqCancel 0 2)]);
    [reflexivity | repeat constructor].
Defined.

(** X7.  Booking and then cancelling is a round trip: when schedule
    creates an interview, a cancel of it by the same caller succeeds and
    gives back the collection of before the booking. *)
Theorem schedule_then_cancel_restores
    (jobs : Job.Collection) (c : Interview.Collection) (u : ObjectId)
    (body : ScheduleBody) (now : Instant) :
  success (fst (schedule jobs c u body now)) = true ->
  cancel (snd (schedule jobs c u body now)) (newObjectId c) u
  = (ok "Interview cancelled successfully" NoData, c).
Proof.
  intros Hok.
  destruct (schedule_effect jobs c u body now)
    as [[Hf _]|[_ (j & t & _ & _ & _ & _ & ->)]]; [congruence |].
  unfold cancel, findOwned. rewrite lookup_insert_eq. simpl.
  rewrite bool_decide_eq_true_2 by done. simpl.
  rewrite delete_insert_eq. f_equal. apply delete_id, newObjectId_fresh.
Qed.

(** Candidate 2 books a free slot beside the booking of candidate 1 and
    cancels it. *)
Lemma schedule_then_cancel_restores_witness :
  success (fst (schedule sampleJobs (bookedBy1 1000 None) 2
                  (bodyFor 700000 None) 0)) = true
  /\ cancel (snd (schedule sampleJobs (bookedBy1 1000 None) 2
                    (bodyFor 700000 None) 0))
       (newObjectId (bookedBy1 1000 None)) 2
     = (ok "Interview cancelled successfully" NoData, bookedBy1 1000 None).
Proof.
  split; [reflexivity |].
  apply schedule_then_cancel_restores. reflexivity.
Defined.

(** X8.  An interview whose duration is zero or negative can never be
    started: its slot holds no instant, so every start of it is refused,
    whoever calls and whenever. *)
Theorem nonpositive_duration_never_starts
    (c : Interview.Collection) (id u : ObjectId) (d : Interview.t)
    (now : Instant) :
  c !! id = Some d -> duration d <= 0 ->
  success (fst (start c id u now)) = false.
Proof.
  intros Hd Hdur.
  destruct (start_effect c id u now)
    as [[Hf _]|[_ (d0 & Hd0 & _ & _ & Hw & _)]]; [done |].
  assert (d0 = d) as -> by congruence.
  unfold inSlot, endTime in Hw. lia.
Qed.

(** The booking of instant 1000 with duration 0, tried at instant 1000. *)
Lemma nonpositive_duration_never_starts_witness :
  bookedBy1 1000 (Some 0) !! 0%nat = Some zeroDoc
  /\ duration zeroDoc <= 0
  /\ success (fst (start (bookedBy1 1000 (Some 0)) 0 1 1000)) = false.
Proof.
  split; [reflexivity |]. split; [discriminate |].
  apply (nonpositive_duration_never_starts (bookedBy1 1000 (Some 0)) 0 1
           zeroDoc 1000); [reflexivity | discriminate].
Defined.

(** X9.  A booking of positive duration runs to completion: once schedule
    has created it, a start by the same caller at the booked instant
    succeeds, and a complete at any reading of the clock then succeeds and
    stores the completed interview, with the supplied notes, beside the
    unchanged rest of the collection. *)
Theorem booked_interview_runs_to_completion
    (jobs : Job.Collection) (c : Interview.Collection) (u jobId : ObjectId)
    (at_ : Instant) (dur : option Z) (now now2 : Instant)
    (supplied : option string) :
  success (fst (schedule jobs c u
                  (mkScheduleBody (Some jobId) (Some at_) dur) now)) = true ->
  0 < default 10 dur ->
  let id := newObjectId c in
  let c1 := snd (schedule jobs c u
                   (mkScheduleBody (Some jobId) (Some at_) dur) now) in
  success (fst (start c1 id u at_)) = true
  /\ complete (snd (start c1 id u at_)) id u supplied now2
     = (ok "Interview completed successfully" NoData,
        <[id := mk u jobId at_ (default 10 dur) completed ai_interview None
                  (if truthy supplied then supplied else None)
                  (Some at_) (Some now2)]> c).
Proof.
  intros Hok Hdur id c1.
  destruct (schedule_effect jobs c u
              (mkScheduleBody (Some jobId) (Some at_) dur) now)
    as [[Hf _]|[_ (j & t & Hj & Ht & _ & _ & Heq)]]; [congruence |].
  simpl in Hj, Ht, Heq. injection Hj as <-. injection Ht as <-.
  unfold c1. rewrite Heq. fold id.
  set (d := create u jobId at_ (default 10 dur) ai_interview).
  assert (Hl : <[id := d]> c !! id = Some d) by apply lookup_insert_eq.
  assert (Hw : scheduledAt d <= at_ < endTime d).
  { unfold endTime. simpl. lia. }
  rewrite (start_in_window _ id u d at_ Hl eq_refl Hw). simpl.
  split; [done |].
  unfold complete, findOwned. rewrite lookup_insert_eq. simpl.
  rewrite bool_decide_eq_true_2 by done. simpl.
  rewrite !insert_insert_eq. by destruct (truthy supplied).
Qed.

(** The default booking, started at 1000 and completed at 2000. *)
Lemma booked_interview_runs_to_completion_witness :
  success (fst (schedule sampleJobs ∅ 1 (bodyFor 1000 None) 0)) = true
  /\ 0 < default 10 (None : option Z)
  /\ complete startedSample 0 1 (Some "fine"%string) 2000
     = (ok "Interview completed successfully" NoData,
        <[0%nat := mk 1 7 1000 10 completed ai_interview None
                     (Some "fine"%string) (Some 1000) (Some 2000)]> ∅).
Proof.
  split; [reflexivity |]. split; [reflexivity |].
  destruct (booked_interview_runs_to_completion sampleJobs ∅ 1 7 1000 None
              0 2000 (Some "fine"%string)) as [_ H];
    [reflexivity | reflexivity |].
  exact H.
Defined.

(** ** The sweep, the virtuals and the listing *)

Lemma expiredQuery_swept_status now d :
  (if expiredQuery now (set_status expired d)
   then set_status expired (set_status expired d)
   else set_status expired d)
  = set_status expired d.
Proof. reflexivity. Qed.

(** X10.  Two sweeps in a row do what one sweep at the later of the two
    instants does: the collection after sweeping at [now1] and then at
    [now2] is the collection after sweeping at [max now1 now2]. *)
Theorem cleanup_twice_is_cleanup_at_max
    (c : Interview.Collection) (now1 now2 : Instant) :
  snd (cleanupExpiredInterviews now2 (snd (cleanupExpiredInterviews now1 c)))
  = snd (cleanupExpiredInterviews (Z.max now1 now2) c).
Proof.
  apply map_eq. intros i. rewrite !cleanup_lookup.
  destruct (c !! i) as [d|]; [| done]. simpl. f_equal.
  destruct (expiredQuery now1 d) eqn:E1.
  - rewrite expiredQuery_swept_status.
    apply expiredQuery_iff in E1 as [Hs He].
    assert (E : expiredQuery (Z.max now1 now2) d = true)
      by (apply expiredQuery_iff; split; [done | lia]).
    by rewrite E.
  - destruct (expiredQuery now2 d) eqn:E2.
    + apply expiredQuery_iff in E2 as [Hs He].
      assert (E : expiredQuery (Z.max now1 now2) d = true)
        by (apply expiredQuery_iff; split; [done | lia]).
      by rewrite E.
    + assert (E : expiredQuery (Z.max now1 now2) d = false).
      { destruct (expiredQuery (Z.max now1 now2) d) eqn:E; [| done].
        apply expiredQuery_iff in E as [Hs He].
        destruct (Z.max_spec now1 now2) as [[_ Hm]|[_ Hm]]; rewrite Hm in He.
        - assert (expiredQuery now2 d = true)
            by (by apply expiredQuery_iff). congruence.
        - assert (expiredQuery now1 d = true)
            by (by apply expiredQuery_iff). congruence. }
      by rewrite E.
Qed.

Lemma isExpired_expiredQuery now d : isExpired now d = expiredQuery now d.
Proof.
  unfold isExpired, expiredQuery, exprEnd.
  replace (scheduledAt d + duration d * 60 * 1000)
    with (scheduledAt d + duration d * 60000) by lia.
  apply andb_comm.
Qed.

Lemma myInterviews_In (c : Interview.Collection) u now id d :
  In (id, d) (fst (myInterviews c u now)) <->
  snd (cleanupExpiredInterviews now c) !! id = Some d
  /\ Interview.user d = u /\ statusActive d = true.
Proof.
  unfold myInterviews.
  destruct (cleanupExpiredInterviews now c) as [r c'] eqn:E. simpl.
  rewrite <- list_elem_of_In, merge_sort_Permutation, list_elem_of_In.
  rewrite filter_In, <- list_elem_of_In, elem_of_map_to_list. simpl.
  rewrite andb_true_iff, bool_decide_eq_true. tauto.
Qed.

Lemma swept_active_iff (c : Interview.Collection) now id d :
  snd (cleanupExpiredInterviews now c) !! id = Some d
  /\ statusActive d = true <->
  c !! id = Some d
  /\ ((status d = scheduled /\ now <= endTime d) \/ status d = in_progress).
Proof.
  rewrite cleanup_lookup, statusActive_iff. split.
  - intros [Hl Ha]. destruct (c !! id) as [d0|]; [| done]. simpl in Hl.
    destruct (expiredQuery now d0) eqn:E; injection Hl as <-.
    + destruct Ha; discriminate.
    + split; [done |]. destruct Ha as [Hs|Hs]; [left | by right].
      split; [done |]. destruct (Z.le_gt_cases now (endTime d0)); [done |].
      assert (expiredQuery now d0 = true)
        by (apply expiredQuery_iff; split; [done | lia]).
      congruence.
  - intros [Hl Hs]. rewrite Hl. simpl.
    destruct (expiredQuery now d) eqn:E.
    + apply expiredQuery_iff in E as [E1 E2].
      destruct Hs as [[_ ?]|?]; [lia | congruence].
    + split; [done |]. tauto.
Qed.

(** X11.  [GET /my-interviews] lists exactly the caller's interviews that
    are in progress, or scheduled with an end not before [now]: an
    interview is listed if and only if the collection of before the request
    holds it with that caller, and with status in-progress or with status
    scheduled and [now <= endTime].  Each is listed once. *)
Theorem myInterviews_lists_live_bookings_of_caller
    (c : Interview.Collection) (u : ObjectId) (now : Instant) :
  (forall id d,
     In (id, d) (fst (myInterviews c u now)) <->
     c !! id = Some d /\ Interview.user d = u
     /\ ((status d = scheduled /\ now <= endTime d)
         \/ status d = in_progress))
  /\ NoDup (List.map listed_id (myInterviewsReply c u now)).
Proof.
  split.
  - intros id d. rewrite myInterviews_In.
    pose proof (swept_active_iff c now id d). tauto.
  - unfold myInterviewsReply. rewrite map_map. simpl.
    unfold myInterviews, cleanupExpiredInterviews, updateMany. simpl.
    set (c' := _ <$> c).
    change (List.map (fun x : nat * Interview.t => x.1)) with
      (fmap (M := list) (fst : nat * Interview.t -> nat)).
    rewrite merge_sort_Permutation.
    apply (sublist_NoDup _ (map_to_list c').*1);
      [apply NoDup_fst_map_to_list |].
    apply fmap_sublist.
    induction (map_to_list c') as [|x l IH]; simpl; [constructor |].
    destruct (_ && _); by constructor.
Qed.

#[global] Instance byScheduledAt_total : Total byScheduledAt.
Proof. intros a b. unfold byScheduledAt. lia. Qed.

#[global] Instance byScheduledAt_trans : Transitive byScheduledAt.
Proof. intros a b c'. unfold byScheduledAt. lia. Qed.

(** X12.  The listing comes by ascending [scheduledAt]: in the reply of
    [GET /my-interviews] every interview is booked no later than all those
    after it. *)
Theorem myInterviews_sorted_by_scheduledAt
    (c : Interview.Collection) (u : ObjectId) (now : Instant) :
  StronglySorted Z.le
    (List.map listed_scheduledAt (myInterviewsReply c u now)).
Proof.
  unfold myInterviewsReply. rewrite map_map. simpl.
  unfold myInterviews, cleanupExpiredInterviews, updateMany. simpl.
  apply (StronglySorted_fmap
           (fun kv : nat * Interview.t => scheduledAt kv.2)
           byScheduledAt Z.le).
  - by intros a b.
  - apply StronglySorted_merge_sort; apply _.
Qed.

(** X13.  What [GET /my-interviews] lists is live at the sweep.  Every
    listed interview has status scheduled or in-progress, and whenever its
    virtuals read the clock, its two countdowns are not negative and
    [isExpired] is true only of a scheduled interview whose slot ended at
    or after the reading of the sweep and before the reading of the
    virtual; at the reading of the sweep itself [isExpired] is false. *)
Theorem myInterviews_expired_only_since_sweep
    (c : Interview.Collection) (u : ObjectId) (now : Instant)
    (id : ObjectId) (d : Interview.t) :
  In (id, d) (fst (myInterviews c u now)) ->
  (status d = scheduled \/ status d = in_progress)
  /\ isExpired now d = false
  /\ forall now',
       0 <= timeUntilStart now' d
       /\ 0 <= timeRemaining now' d
       /\ (isExpired now' d = true ->
           status d = scheduled /\ now <= endTime d < now').
Proof.
  intros Hin.
  apply myInterviews_In in Hin as (Hl & Hu & Ha).
  destruct (proj1 (swept_active_iff c now id d) (conj Hl Ha))
    as [_ Hlive].
  split; [by apply statusActive_iff |]. split.
  - rewrite isExpired_expiredQuery.
    destruct (expiredQuery now d) eqn:E; [| done].
    apply expiredQuery_iff in E as [Hs He].
    destruct Hlive as [[_ ?]|?]; [lia | congruence].
  - intros now'. unfold timeUntilStart, timeRemaining.
    split; [lia |]. split.
    + destruct (startedAt d); [| done]. case_bool_decide; lia.
    + rewrite isExpired_expiredQuery. intros E.
      apply expiredQuery_iff in E as [Hs He].
      split; [done |]. destruct Hlive as [[_ ?]|?]; [lia | congruence].
Qed.

(** The default booking ends at 601000: swept and listed at that instant,
    it has [isExpired] true when the virtual reads 601001. *)
Lemma myInterviews_expired_only_since_sweep_witness :
  In (0%nat, sampleDoc) (fst (myInterviews (bookedBy1 1000 None) 1 601000))
  /\ isExpired 601001 sampleDoc = true
  /\ 601000 <= endTime sampleDoc < 601001.
Proof.
  split; [left; reflexivity |]. split; [reflexivity |].
  destruct (myInterviews_expired_only_since_sweep (bookedBy1 1000 None) 1
              601000 0 sampleDoc) as (_ & _ & H); [left; reflexivity |].
  destruct (H 601001) as (_ & _ & He).
  apply He. reflexivity.
Defined.

(** ** More on the conflict check *)

Lemma conflictQuery_exclude s e x id d :
  conflictQuery s e (Some x) id d
  = conflictQuery s e None id d && negb (bool_decide (id = x)).
Proof. unfold conflictQuery. by rewrite andb_true_r. Qed.

(** X14.  With an [excludeId], [checkTimeConflict] looks past that one
    document and no other: the document it returns is stored, in status
    scheduled or in-progress, and is not the excluded one; and it returns a
    document exactly when the check without exclusion returns one on the
    collection without the excluded document. *)
Theorem checkTimeConflict_excludeId
    (c : Interview.Collection) (at_ : Instant) (dur : Z) (x : ObjectId) :
  (forall id d, checkTimeConflict c at_ dur (Some x) = Some (id, d) ->
     id <> x /\ c !! id = Some d /\ statusActive d = true)
  /\ (is_Some (checkTimeConflict c at_ dur (Some x)) <->
      is_Some (checkTimeConflict (delete x c) at_ dur None)).
Proof.
  split.
  - intros id d H. unfold checkTimeConflict in H.
    apply findOne_Some in H as [Hl Hq].
    rewrite conflictQuery_exclude in Hq.
    apply andb_true_iff in Hq as [Hq Hx].
    apply negb_true_iff, bool_decide_eq_false in Hx.
    split; [done |]. split; [done |].
    unfold conflictQuery in Hq.
    by destruct (statusActive d).
  - unfold checkTimeConflict. rewrite !findOne_is_Some.
    split; intros (id & d & Hl & Hq); exists id, d.
    + rewrite conflictQuery_exclude in Hq.
      apply andb_true_iff in Hq as [Hq Hx].
      apply negb_true_iff, bool_decide_eq_false in Hx.
      split; [by apply lookup_delete_Some | done].
    + apply lookup_delete_Some in Hl as [Hx Hl]. split; [done |].
      rewrite conflictQuery_exclude, Hq. simpl.
      apply negb_true_iff, bool_decide_eq_false. congruence.
Qed.

(** The default booking is in conflict with its own slot unless excluded. *)
Lemma checkTimeConflict_excludeId_witness :
  checkTimeConflict (bookedBy1 1000 None) 1000 10 None = Some (0%nat, sampleDoc)
  /\ checkTimeConflict (bookedBy1 1000 None) 1000 10 (Some 0%nat) = None
  /\ ~ is_Some (checkTimeConflict (delete 0%nat (bookedBy1 1000 None))
                  1000 10 None).
Proof.
  split; [reflexivity |]. split; [reflexivity |].
  destruct (checkTimeConflict_excludeId (bookedBy1 1000 None) 1000 10 0)
    as [_ H].
  intros Hs. apply H in Hs. destruct Hs as [r Hr]. discriminate.
Defined.

(** X15.  A free slot is granted: when the job exists, the caller has
    applied, the instant is in the future, the duration is positive, the
    requested slot and the stored slots lie within the range of [Date],
    and every stored interview in status scheduled or in-progress has a
    positive duration and a slot that ends at or before the requested
    start or starts at or after the requested end, schedule succeeds. *)
Theorem schedule_succeeds_on_free_slot
    (jobs : Job.Collection) (c : Interview.Collection) (u jobId : ObjectId)
    (job : Job.t) (at_ : Instant) (dur : option Z) (now : Instant) :
  jobs !! jobId = Some job -> hasApplied job u = true -> now < at_ ->
  0 < default 10 dur ->
  inDateRange now -> inDateRange at_ ->
  inDateRange (at_ + default 10 dur * 60 * 1000) ->
  (forall id d, c !! id = Some d ->
     inDateRange (scheduledAt d) /\ inDateRange (endTime d)) ->
  (forall id d, c !! id = Some d -> statusActive d = true ->
     0 < duration d
     /\ (endTime d <= at_ \/ at_ + default 10 dur * 60 * 1000 <= scheduledAt d)) ->
  success (fst (schedule jobs c u
                  (mkScheduleBody (Some jobId) (Some at_) dur) now)) = true.
Proof.
  intros Hjob Happ Hfut Hdur _ _ _ _ Hfree.
  rewrite (schedule_guards_passed jobs c u jobId job at_ dur now) by done.
  assert (Hn : checkTimeConflict c at_ (default 10 dur) None = None).
  { apply checkTimeConflict_None. intros id d Hl.
    destruct (conflictQuery _ _ _ _ _) eqn:Hq; [| done].
    assert (Ha : statusActive d = true).
    { unfold conflictQuery in Hq. by destruct (statusActive d). }
    destruct (Hfree id d Hl Ha) as [Hpos Hdisj].
    apply reported_is_overlap in Hq; [| lia | unfold endTime; lia].
    unfold overlapsSpec in Hq. bool_to_lia. lia. }
  by rewrite Hn.
Qed.

Lemma bookedBy1_default :
  bookedBy1 1000 None = {[ 0%nat := sampleDoc ]}.
Proof. vm_compute. reflexivity. Qed.

(** Candidate 2 asks for the ten minutes right after those of candidate 1. *)
Lemma schedule_succeeds_on_free_slot_witness :
  sampleJobs !! 7%nat
    = Some (Job.mk [Job.mkApplication 1; Job.mkApplication 2])
  /\ 0 < 601000
  /\ inDateRange 601000
  /\ inDateRange (601000 + default 10 (None : option Z) * 60 * 1000)
  /\ endTime sampleDoc <= 601000
  /\ success (fst (schedule sampleJobs (bookedBy1 1000 None) 2
                     (bodyFor 601000 None) 0)) = true.
Proof.
  split; [reflexivity |]. split; [lia |].
  split; [unfold inDateRange; lia |].
  split; [unfold inDateRange; simpl; lia |].
  split; [vm_compute; discriminate |].
  apply (schedule_succeeds_on_free_slot sampleJobs (bookedBy1 1000 None) 2 7
           (Job.mk [Job.mkApplication 1; Job.mkApplication 2]) 601000 None 0);
    [reflexivity | reflexivity | lia | reflexivity
    | unfold inDateRange; lia | unfold inDateRange; lia
    | unfold inDateRange; simpl; lia | |].
  - intros id d Hl. rewrite bookedBy1_default in Hl.
    apply lookup_singleton_Some in Hl as [_ <-].
    unfold inDateRange, endTime. simpl. lia.
  - intros id d Hl _. rewrite bookedBy1_default in Hl.
    apply lookup_singleton_Some in Hl as [_ <-].
    split; [reflexivity |]. left. vm_compute. discriminate.
Defined.

(** ** Interviews in progress *)

Lemma schedule_keeps_documents jobs (c : Interview.Collection) u body
    now id d :
  c !! id = Some d -> snd (schedule jobs c u body now) !! id = Some d.
Proof.
  intros Hd.
  destruct (schedule_effect jobs c u body now)
    as [[_ ->]|[_ (jb & t & _ & _ & _ & _ & ->)]]; [done |].
  rewrite lookup_insert_ne; [done |].
  intros <-. by rewrite newObjectId_fresh in Hd.
Qed.


Lemma serve_in_progress (c : Interview.Collection) a id d :
  c !! id = Some d -> status d = in_progress ->
  endsInterview id (Interview.user d) (at_request a) = false ->
  serve c a !! id = Some d.
Proof.
  intros Hd Hs Hreq.
  assert (Hsweep : forall now,
            snd (cleanupExpiredInterviews now c) !! id = Some d).
  { intros now. rewrite cleanup_lookup, Hd. simpl.
    destruct (expiredQuery now d) eqn:E; [| done].
    apply expiredQuery_iff in E as [E _]. congruence. }
  unfold serve. destruct (at_request a) as [u b|i u|i u|i u n|i u|u|].
  - by apply schedule_keeps_documents.
  - destruct (cancel_effect c i u) as [[_ ->]|[_ (d0 & H0 & Hu & _ & ->)]];
      [done |].
    rewrite lookup_delete_ne; [done |]. intros ->.
    assert (d0 = d) as -> by congruence. simpl in Hreq.
    by rewrite !bool_decide_eq_true_2 in Hreq.
  - destruct (start_effect c i u (at_now a))
      as [[_ ->]|[_ (d0 & H0 & _ & Hs0 & _ & ->)]]; [done |].
    rewrite lookup_insert_ne; [done |]. intros ->. congruence.
  - destruct (complete_effect c i u n (at_now a))
      as [[_ ->]|[_ (d0 & H0 & Hu & _ & ->)]]; [done |].
    rewrite lookup_insert_ne; [done |]. intros ->.
    assert (d0 = d) as -> by congruence. simpl in Hreq.
    by rewrite !bool_decide_eq_true_2 in Hreq.
  - done.
  - by rewrite myInterviews_snd.
  - by rewrite cleanup_snd.
Qed.

(** X16.  An interview in progress waits for its owner: as long as no
    request is a complete or a cancel of it by its candidate, it stays in
    the collection unchanged, in status in-progress, however late the clock
    and however often the sweep runs. *)
Theorem in_progress_waits_for_owner
    (c : Interview.Collection) (id : ObjectId) (d : Interview.t)
    (history : list Arrival) :
  c !! id = Some d -> status d = in_progress ->
  Forall (fun a => endsInterview id (Interview.user d) (at_request a) = false)
    history ->
  run c history !! id = Some d.
Proof.
  intros Hd Hs Hall. unfold run. revert c Hd.
  induction Hall as [|a history Ha _ IH]; intros c Hd; [done |].
  simpl. apply IH. by apply serve_in_progress.
Qed.

(** The started booking, a day later: swept, listed, and cancelled by
    another candidate. *)
Lemma in_progress_waits_for_owner_witness :
  startedSample !! 0%nat = Some (started 1000 sampleDoc)
  /\ status (started 1000 sampleDoc) = in_progress
  /\ run startedSample
       [mkArrival ∅ 86400000 ReqCleanup;
        mkArrival ∅ 86400000 (ReqMyInterviews 1);
        mkArrival ∅ 86400000 (ReqCancel 0 2)] !! 0%nat
     = Some (started 1000 sampleDoc).
Proof.
  split; [reflexivity |]. split; [reflexivity |].
  apply in_progress_waits_for_owner; [reflexivity | reflexivity |].
  repeat constructor.
Defined.

(** ** Applying to a job, and the application guard of schedule *)

Lemma hasApplied_toJob (job : Jobs.t) u :
  hasApplied (Jobs.toJob job) u
  = existsb (fun app => bool_decide (Jobs.user app = u))
      (Jobs.applications job).
Proof.
  unfold hasApplied, Jobs.toJob. simpl.
  induction (Jobs.applications job) as [|app l IH]; [done |].
  simpl. by rewrite IH.
Qed.

Lemma find_existsb {A} (p : A -> bool) (l : list A) :
  existsb p l = bool_decide (is_Some (List.find p l)).
Proof.
  induction l as [|x l IH]; simpl; [done |].
  by destruct (p x).
Qed.

(** What a successful apply found and wrote. *)
Lemma apply_effect (jobs : gmap nat Jobs.t) id u letter now :
  fst (Jobs.apply jobs id u letter now)
  = Jobs.Message "Application submitted successfully" ->
  exists job,
    jobs !! id = Some job
    /\ Jobs.isArchived job = false /\ Jobs.status job = Jobs.active
    /\ hasApplied (Jobs.toJob job) u = false
    /\ snd (Jobs.apply jobs id u letter now)
       = <[id := Jobs.mk (Jobs.postedBy job) (Jobs.status job)
                   (Jobs.isArchived job)
                   (Jobs.applications job
                    ++ [Jobs.mkApplication u (default ""%string letter) now
                          Jobs.pending])]> jobs.
Proof.
  unfold Jobs.apply. destruct (jobs !! id) as [job|]; [| discriminate].
  destruct (Jobs.isArchived job) eqn:Ha; [discriminate |]. simpl.
  case_bool_decide as Hs; [| discriminate]. simpl.
  destruct (find _ _) eqn:Hf; [discriminate |].
  destruct (Jobs.coverLetterValid _); [| discriminate].
  intros _. exists job.
  split; [done |]. split; [done |]. split; [done |]. split.
  - by rewrite hasApplied_toJob, find_existsb, Hf.
  - simpl. by rewrite Ha.
Qed.

(** X17.  Applying is what opens the door of schedule.  When
    [POST /:id/apply] accepts the application of a candidate, a schedule of
    that candidate for that job was refused with NotApplied on the jobs of
    before, and on the jobs of after it is refused neither with NotApplied
    nor with JobNotFound, whatever the instant, duration and bookings. *)
Theorem apply_opens_schedule
    (jobs : gmap nat Jobs.t) (id u : ObjectId) (letter : option string)
    (now : Instant) :
  fst (Jobs.apply jobs id u letter now)
  = Jobs.Message "Application submitted successfully" ->
  forall (c : Interview.Collection) at_ dur now',
    schedule (Jobs.schedulerView jobs) c u
      (mkScheduleBody (Some id) (Some at_) dur) now'
    = (NotApplied, c)
    /\ fst (schedule (Jobs.schedulerView (snd (Jobs.apply jobs id u letter now)))
              c u (mkScheduleBody (Some id) (Some at_) dur) now')
       <> NotApplied
    /\ fst (schedule (Jobs.schedulerView (snd (Jobs.apply jobs id u letter now)))
              c u (mkScheduleBody (Some id) (Some at_) dur) now')
       <> JobNotFound.
Proof.
  intros Hok c at_ dur now'.
  destruct (apply_effect jobs id u letter now Hok)
    as (job & Hj & _ & _ & Hna & ->).
  split.
  - unfold schedule, Job.findById, Jobs.schedulerView. simpl.
    rewrite lookup_fmap, Hj. simpl. by rewrite Hna.
  - set (job' := Jobs.mk _ _ _ _).
    assert (Hj' : Jobs.schedulerView (<[id := job']> jobs) !! id
                  = Some (Jobs.toJob job')).
    { unfold Jobs.schedulerView. by rewrite lookup_fmap, lookup_insert_eq. }
    assert (Ha' : hasApplied (Jobs.toJob job') u = true).
    { rewrite hasApplied_toJob. unfold job'. simpl.
      rewrite existsb_app. simpl.
      rewrite (bool_decide_eq_true_2 (u = u)) by done.
      by rewrite orb_true_r. }
    unfold schedule, Job.findById. simpl. rewrite Hj', Ha'. simpl.
    destruct (at_ <=? now'); [by split |].
    destruct (checkTimeConflict _ _ _ _); by split.
Qed.

(** Candidate 1 applies to the open job and then books instant 1000. *)
Lemma apply_opens_schedule_witness :
  fst (Jobs.apply openJobs 7 1 (Some "hello"%string) 50)
  = Jobs.Message "Application submitted successfully"
  /\ schedule (Jobs.schedulerView openJobs) ∅ 1 (bodyFor 1000 None) 100
     = (NotApplied, ∅)
  /\ success (fst (schedule (Jobs.schedulerView appliedJobs) ∅ 1
                     (bodyFor 1000 None) 100)) = true.
Proof.
  split; [reflexivity |]. split; [| reflexivity].
  apply (apply_opens_schedule openJobs 7 1 (Some "hello"%string) 50 eq_refl
           ∅ 1000 None 100).
Defined.

(** Once a user is among the applicants of a job, an apply or a delete
    leaves the user there. *)
Lemma serveJob_keeps_applicant (jobs : gmap nat Jobs.t) a id u job :
  jobs !! id = Some job -> hasApplied (Jobs.toJob job) u = true ->
  exists job', serveJob jobs a !! id = Some job'
    /\ hasApplied (Jobs.toJob job') u = true.
Proof.
  intros Hj Hu. unfold serveJob.
  destruct (job_request a) as [i v letter|i v].
  - unfold Jobs.apply. destruct (jobs !! i) as [job0|] eqn:Hi; [| by exists job].
    destruct (_ || _); [by exists job |].
    destruct (find _ _); [by exists job |].
    destruct (Jobs.coverLetterValid _); [| by exists job]. simpl.
    destruct (decide (id = i)) as [->|Hne].
    + assert (job0 = job) as -> by congruence.
      eexists. rewrite lookup_insert_eq. split; [done |].
      rewrite hasApplied_toJob in *. simpl.
      rewrite existsb_app, Hu. done.
    + exists job. by rewrite lookup_insert_ne.
  - unfold Jobs.remove. destruct (jobs !! i) as [job0|] eqn:Hi; [| by exists job].
    destruct (negb _); [by exists job |]. simpl.
    destruct (decide (id = i)) as [->|Hne].
    + assert (job0 = job) as -> by congruence.
      eexists. rewrite lookup_insert_eq. split; [done |].
      by rewrite hasApplied_toJob in *.
    + exists job. by rewrite lookup_insert_ne.
Qed.

(** X18.  A candidate applies to a job at most once.  After an accepted
    application, and after any applies and deletes served since, whoever
    made them, a further apply of the same candidate to the same job is
    never accepted: it is answered 400 (already applied) or 404 (job
    deleted since) and changes nothing.  And if the applicants of the job
    were pairwise distinct before an apply, they are after it. *)
Theorem apply_at_most_once
    (jobs : gmap nat Jobs.t) (id u : ObjectId) (letter : option string)
    (now : Instant) :
  (fst (Jobs.apply jobs id u letter now)
   = Jobs.Message "Application submitted successfully" ->
   forall history letter' now',
     let jobs' := runJobs (snd (Jobs.apply jobs id u letter now)) history in
     (fst (Jobs.apply jobs' id u letter' now')
      = Jobs.Error 400 "You have already applied to this job"
      \/ fst (Jobs.apply jobs' id u letter' now')
         = Jobs.Error 404 "Job not found or not available")
     /\ snd (Jobs.apply jobs' id u letter' now') = jobs')
  /\ (forall job job',
        jobs !! id = Some job ->
        snd (Jobs.apply jobs id u letter now) !! id = Some job' ->
        NoDup (List.map Jobs.user (Jobs.applications job)) ->
        NoDup (List.map Jobs.user (Jobs.applications job'))).
Proof.
  split.
  - intros Hok history letter' now' jobs'.
    assert (Hinv : exists job', jobs' !! id = Some job'
                     /\ hasApplied (Jobs.toJob job') u = true).
    { unfold jobs'.
      assert (H0 : exists job',
                snd (Jobs.apply jobs id u letter now) !! id = Some job'
                /\ hasApplied (Jobs.toJob job') u = true).
      { destruct (apply_effect jobs id u letter now Hok)
          as (job & Hj & Ha & Hs & _ & ->).
        eexists. rewrite lookup_insert_eq. split; [done |].
        rewrite hasApplied_toJob. simpl. rewrite existsb_app. simpl.
        rewrite (bool_decide_eq_true_2 (u = u)) by done.
        by rewrite orb_true_r. }
      unfold runJobs. revert H0.
      generalize (snd (Jobs.apply jobs id u letter now)).
      induction history as [|a history IH]; intros j0 (job' & Hj' & Hu');
        [by exists job' |].
      simpl. apply IH. by apply (serveJob_keeps_applicant j0 a id u job'). }
    destruct Hinv as (job' & Hj' & Hu').
    unfold Jobs.apply. rewrite Hj'.
    destruct (_ || _); [by split; [right |] |].
    rewrite hasApplied_toJob, find_existsb in Hu'.
    apply bool_decide_eq_true in Hu' as [app Happ]. rewrite Happ.
    by split; [left |].
  - intros job job' Hj Hj' Hnd. unfold Jobs.apply in Hj'. rewrite Hj in Hj'.
    destruct (_ || _); [simpl in Hj'; congruence |].
    destruct (find _ _) eqn:Hf; [simpl in Hj'; congruence |].
    destruct (Jobs.coverLetterValid _); [| simpl in Hj'; congruence].
    simpl in Hj'. rewrite lookup_insert_eq in Hj'. injection Hj' as <-.
    simpl. rewrite map_app. simpl.
    apply NoDup_app. split; [done |]. split; [| apply NoDup_singleton].
    intros v Hin Hv. apply list_elem_of_singleton in Hv as ->.
    apply list_elem_of_In, in_map_iff in Hin as (app & Hu & Hin).
    pose proof (find_none _ _ Hf _ Hin) as Hf'.
    simpl in Hf'. by rewrite bool_decide_eq_true_2 in Hf'.
Qed.

(** Candidate 1 applies again: right away, and after candidate 2 applied
    and the poster deleted the job. *)
Lemma apply_at_most_once_witness :
  fst (Jobs.apply openJobs 7 1 (Some "hello"%string) 50)
  = Jobs.Message "Application submitted successfully"
  /\ Jobs.apply appliedJobs 7 1 None 60
     = (Jobs.Error 400 "You have already applied to this job", appliedJobs)
  /\ snd (Jobs.apply
            (runJobs appliedJobs
               [mkJobArrival 70 (JobApply 7 2 None);
                mkJobArrival 80 (JobRemove 7 9)])
            7 1 None 90)
     = runJobs appliedJobs
         [mkJobArrival 70 (JobApply 7 2 None);
          mkJobArrival 80 (JobRemove 7 9)].
Proof.
  split; [reflexivity |]. split; [reflexivity |].
  destruct (apply_at_most_once openJobs 7 1 (Some "hello"%string) 50)
    as [H _].
  apply (H eq_refl [mkJobArrival 70 (JobApply 7 2 None);
                    mkJobArrival 80 (JobRemove 7 9)] None 90).
Defined.

(** X19.  Deleting a job closes it to applications and leaves bookings
    open: after an accepted [DELETE /:id] every apply to the job is
    answered 404, while [POST /schedule] reads the jobs exactly as before,
    so that whoever had applied can still book an interview for it. *)
Theorem removed_job_still_schedulable
    (jobs : gmap nat Jobs.t) (id owner : ObjectId) :
  fst (Jobs.remove jobs id owner) = Jobs.Message "Job deleted successfully" ->
  (forall u letter now,
     Jobs.apply (snd (Jobs.remove jobs id owner)) id u letter now
     = (Jobs.Error 404 "Job not found or not available",
        snd (Jobs.remove jobs id owner)))
  /\ Jobs.schedulerView (snd (Jobs.remove jobs id owner))
     = Jobs.schedulerView jobs.
Proof.
  unfold Jobs.remove. destruct (jobs !! id) as [job|] eqn:Hj; [| discriminate].
  case_bool_decide; [| discriminate]. simpl. intros _. split.
  - intros u letter now. unfold Jobs.apply. by rewrite lookup_insert_eq.
  - unfold Jobs.schedulerView. rewrite fmap_insert.
    apply insert_id. by rewrite lookup_fmap, Hj.
Qed.

(** The job candidate 1 applied to is deleted by its poster, user 9. *)
Lemma removed_job_still_schedulable_witness :
  fst (Jobs.remove appliedJobs 7 9) = Jobs.Message "Job deleted successfully"
  /\ Jobs.apply (snd (Jobs.remove appliedJobs 7 9)) 7 2 None 60
     = (Jobs.Error 404 "Job not found or not available",
        snd (Jobs.remove appliedJobs 7 9))
  /\ success (fst (schedule
                     (Jobs.schedulerView (snd (Jobs.remove appliedJobs 7 9)))
                     ∅ 1 (bodyFor 1000 None) 100)) = true.
Proof.
  split; [reflexivity |].
  destruct (removed_job_still_schedulable appliedJobs 7 9 eq_refl) as [H1 H2].
  split; [apply H1 |]. rewrite H2. reflexivity.
Defined.

(** ** Todos: the completion stamp *)

Lemma todo_findOwned (c : gmap nat Todo.t) id u d :
  c !! id = Some d -> Todo.user d = u -> Todo.findOwned c id u = Some d.
Proof.
  intros Hl Hu. unfold Todo.findOwned. rewrite Hl.
  by rewrite bool_decide_eq_true_2.
Qed.

(** X20.  Toggling a todo flips [completed] and makes [completedAt] agree
    with it, whatever the two were before: after the toggle [completedAt]
    is set exactly when the todo is completed (set to [now] if it was not
    set, kept if it was), every other path of the todo is as before, and no
    other todo is touched. *)
Theorem toggle_stamps_completion
    (c : gmap nat Todo.t) (id u : ObjectId) (d : Todo.t) (now : Instant) :
  c !! id = Some d -> Todo.user d = u ->
  exists d',
    Todo.toggle c id u now = (Todo.Document id d', <[id := d']> c)
    /\ Todo.completed d' = negb (Todo.completed d)
    /\ (is_Some (Todo.completedAt d') <-> Todo.completed d' = true)
    /\ (Todo.completed d' = true ->
        Todo.completedAt d' = Some (default now (Todo.completedAt d)))
    /\ Todo.set_completedAt None (Todo.set_completed false d')
       = Todo.set_completedAt None (Todo.set_completed false d)
    /\ forall j, j <> id ->
         snd (Todo.toggle c id u now) !! j = c !! j.
Proof.
  intros Hl Hu. unfold Todo.toggle.
  rewrite (todo_findOwned c id u d Hl Hu). eexists. split; [done |].
  destruct d as [t0 ds cp pr du ca tg us ar [t|]]; destruct cp; simpl.
  all: split; [reflexivity |].
  all: split;
    [split; [intros Hx; first [done | by destruct Hx]
            | intros Hx; first [done | by eexists]] |].
  all: split; [by intros Hx |].
  all: split; [reflexivity |].
  all: intros j Hj; by apply lookup_insert_ne.
Qed.

(** A todo marked completed without stamp gets its stamp on the way back. *)
Lemma toggle_stamps_completion_witness :
  ({[ 3%nat := sampleTodo ]} : gmap nat Todo.t) !! 3%nat = Some sampleTodo
  /\ Todo.user sampleTodo = 1%nat
  /\ exists d',
       Todo.toggle {[ 3%nat := sampleTodo ]} 3 1 500
       = (Todo.Document 3 d', <[3%nat := d']> {[ 3%nat := sampleTodo ]})
       /\ Todo.completed d' = true
       /\ Todo.completedAt d' = Some 500.
Proof.
  split; [reflexivity |]. split; [reflexivity |].
  destruct (toggle_stamps_completion {[ 3%nat := sampleTodo ]} 3 1 sampleTodo
              500) as (d' & Ht & Hc & _ & Hat & _);
    [reflexivity | reflexivity |].
  exists d'. split; [exact Ht |]. split; [exact Hc |].
  apply Hat. exact Hc.
Defined.

(** X21.  Toggling twice gives back the todo with its [completed] flag and
    every other path as they were, except the stamp: [completedAt] is then
    the instant of the second toggle if the todo is completed, and unset if
    it is not.  The instant of an earlier completion is lost. *)
Theorem toggle_twice_restores_flag
    (c : gmap nat Todo.t) (id u : ObjectId) (d : Todo.t)
    (now1 now2 : Instant) :
  c !! id = Some d -> Todo.user d = u ->
  snd (Todo.toggle (snd (Todo.toggle c id u now1)) id u now2)
  = <[id := Todo.set_completedAt
              (if Todo.completed d then Some now2 else None) d]> c.
Proof.
  intros Hl Hu. unfold Todo.toggle at 2.
  rewrite (todo_findOwned c id u d Hl Hu). simpl.
  set (d1 := Todo.preSave true now1
               (Todo.set_completed (negb (Todo.completed d)) d)).
  assert (Hu1 : Todo.user d1 = u).
  { unfold d1. destruct d as [t0 ds cp pr du ca tg us ar [t|]];
      by destruct cp. }
  unfold Todo.toggle.
  rewrite (todo_findOwned (<[id := d1]> c) id u d1
             (lookup_insert_eq _ _ _) Hu1). simpl.
  rewrite insert_insert_eq. f_equal. unfold d1.
  destruct d as [t0 ds cp pr du ca tg us ar [t|]]; by destruct cp.
Qed.

(** A todo completed at instant 100, toggled at 500 and at 900. *)
Lemma toggle_twice_restores_flag_witness :
  ({[ 3%nat := Todo.set_completedAt (Some 100)
                 (Todo.set_completed true sampleTodo) ]} : gmap nat Todo.t)
    !! 3%nat
  = Some (Todo.set_completedAt (Some 100) (Todo.set_completed true sampleTodo))
  /\ snd (Todo.toggle
            (snd (Todo.toggle
                    {[ 3%nat := Todo.set_completedAt (Some 100)
                                  (Todo.set_completed true sampleTodo) ]}
                    3 1 500))
            3 1 900) !! 3%nat
     = Some (Todo.set_completedAt (Some 900)
               (Todo.set_completed true sampleTodo)).
Proof.
  split; [reflexivity |].
  rewrite (toggle_twice_restores_flag _ 3 1
             (Todo.set_completedAt (Some 100)
                (Todo.set_completed true sampleTodo)) 500 900);
    reflexivity.
Defined.

(** X22.  A todo that is not the caller's is as good as absent: toggle,
    delete, archive and restore answer 404 "Todo not found", the same for
    an unknown id and for the id of another user's todo, and change
    nothing. *)
Theorem todo_not_owned_is_not_found
    (c : gmap nat Todo.t) (id u : ObjectId) (now : Instant) :
  c !! id = None \/ (exists d, c !! id = Some d /\ Todo.user d <> u) ->
  Todo.toggle c id u now = (Todo.Error 404 "Todo not found", c)
  /\ Todo.remove c id u = (Todo.Error 404 "Todo not found", c)
  /\ Todo.archive c id u = (Todo.Error 404 "Todo not found", c)
  /\ Todo.restore c id u = (Todo.Error 404 "Todo not found", c).
Proof.
  intros H.
  assert (E : Todo.findOwned c id u = None).
  { unfold Todo.findOwned. destruct H as [->|(d & -> & Hu)]; [done |].
    by rewrite bool_decide_eq_false_2. }
  unfold Todo.toggle, Todo.remove, Todo.archive, Todo.restore,
    Todo.setArchived.
  by rewrite E.
Qed.

(** User 2 toggles and deletes the todo of user 1. *)
Lemma todo_not_owned_is_not_found_witness :
  ({[ 3%nat := sampleTodo ]} : gmap nat Todo.t) !! 3%nat = Some sampleTodo
  /\ Todo.user sampleTodo <> 2%nat
  /\ Todo.toggle {[ 3%nat := sampleTodo ]} 3 2 500
     = (Todo.Error 404 "Todo not found", {[ 3%nat := sampleTodo ]})
  /\ Todo.remove {[ 3%nat := sampleTodo ]} 3 2
     = (Todo.Error 404 "Todo not found", {[ 3%nat := sampleTodo ]}).
Proof.
  split; [reflexivity |]. split; [discriminate |].
  destruct (todo_not_owned_is_not_found {[ 3%nat := sampleTodo ]} 3 2 500)
    as (H1 & H2 & _); [| by split].
  right. exists sampleTodo. split; [reflexivity | discriminate].
Defined.

(** ** The virtual [isExpired] and the start handler *)

(** X23.  What [isExpired] reports as expired can no longer be started:
    if the virtual is true of a stored interview at [now], every start of
    it at [now] or later is refused and changes nothing. *)
Theorem expired_interview_cannot_start
    (c : Interview.Collection) (id u : ObjectId) (d : Interview.t)
    (now now' : Instant) :
  c !! id = Some d -> isExpired now d = true -> now <= now' ->
  success (fst (start c id u now')) = false
  /\ snd (start c id u now') = c.
Proof.
  intros Hd He Hlater. rewrite isExpired_expiredQuery in He.
  apply expiredQuery_iff in He as [_ He].
  destruct (start_effect c id u now')
    as [?|[_ (d0 & Hd0 & _ & _ & Hw & _)]]; [done |].
  assert (d0 = d) as -> by congruence.
  unfold inSlot in Hw. lia.
Qed.

(** The default booking, one millisecond after its end and a day later. *)
Lemma expired_interview_cannot_start_witness :
  bookedBy1 1000 None !! 0%nat = Some sampleDoc
  /\ isExpired 601001 sampleDoc = true
  /\ 601001 <= 86400000
  /\ success (fst (start (bookedBy1 1000 None) 0 1 86400000)) = false.
Proof.
  split; [reflexivity |]. split; [reflexivity |].
  split; [vm_compute; discriminate |].
  apply (expired_interview_cannot_start (bookedBy1 1000 None) 0 1 sampleDoc
           601001 86400000); [reflexivity | reflexivity |].
  vm_compute. discriminate.
Defined.

(** ** The check and the save of schedule are two steps *)

(** Served in one piece, the handler is its check followed by its save on
    the same collection. *)
Lemma schedule_check_then_save jobs (c : Interview.Collection) u body now :
  schedule jobs c u body now
  = match scheduleCheck jobs c u body now with
    | inl refusal => (refusal, c)
    | inr interview => scheduleSave c interview now
    end.
Proof.
  unfold schedule, scheduleCheck, scheduleSave.
  destruct (body_jobId body) as [jobId|]; [| done].
  destruct (body_scheduledAt body) as [at_|]; [| done].
  destruct (Job.findById jobId jobs) as [job|]; [| done].
  destruct (negb (hasApplied job u)); [done |].
  destruct (at_ <=? now); [done |].
  by destruct (checkTimeConflict _ _ _ _).
Qed.

Lemma scheduleCheck_creates jobs (c : Interview.Collection) u body now d :
  scheduleCheck jobs c u body now = inr d -> status d = scheduled.
Proof.
  unfold scheduleCheck.
  destruct (body_jobId body) as [jobId|]; [| discriminate].
  destruct (body_scheduledAt body) as [at_|]; [| discriminate].
  destruct (Job.findById jobId jobs) as [job|]; [| discriminate].
  destruct (negb (hasApplied job u)); [discriminate |].
  destruct (at_ <=? now); [discriminate |].
  destruct (checkTimeConflict _ _ _ _); [discriminate |].
  by intros [= <-].
Qed.

(** X24.  [POST /schedule] checks and saves in two steps, and nothing ties
    the save to the check.  When the conflict checks of two requests are
    both answered on the same collection before either save, both requests
    are answered 201 and both interviews are stored under different ids,
    whatever their slots: if the two slots overlap, the collection then
    holds two overlapping interviews in status scheduled, be they of one
    candidate or of two. *)
Theorem schedule_checks_before_saves_store_both
    (jobs : Job.Collection) (c : Interview.Collection) (u1 u2 : ObjectId)
    (body1 body2 : ScheduleBody) (now1 now2 : Instant)
    (d1 d2 : Interview.t) :
  scheduleCheck jobs c u1 body1 now1 = inr d1 ->
  scheduleCheck jobs c u2 body2 now2 = inr d2 ->
  let c1 := snd (scheduleSave c d1 now1) in
  let c2 := snd (scheduleSave c1 d2 now2) in
  code (fst (scheduleSave c d1 now1)) = 201%nat
  /\ code (fst (scheduleSave c1 d2 now2)) = 201%nat
  /\ c2 !! newObjectId c = Some d1
  /\ c2 !! newObjectId c1 = Some d2
  /\ newObjectId c <> newObjectId c1
  /\ (overlapsSpec (scheduledAt d1) (endTime d1) (scheduledAt d2) (endTime d2)
      = true -> ~ exclusive c2).
Proof.
  intros H1 H2 c1 c2.
  apply scheduleCheck_creates in H1. apply scheduleCheck_creates in H2.
  assert (Hne : newObjectId c <> newObjectId c1).
  { intros Heq. pose proof (newObjectId_fresh c1) as Hf.
    rewrite <- Heq in Hf. unfold c1, scheduleSave in Hf. simpl in Hf.
    by rewrite lookup_insert_eq in Hf. }
  assert (L1 : c2 !! newObjectId c = Some d1).
  { unfold c2, scheduleSave. simpl. rewrite lookup_insert_ne by done.
    unfold c1, scheduleSave. simpl. apply lookup_insert_eq. }
  assert (L2 : c2 !! newObjectId c1 = Some d2).
  { unfold c2, scheduleSave. simpl. apply lookup_insert_eq. }
  split; [done |]. split; [done |]. split; [done |]. split; [done |].
  split; [done |].
  intros Ho Hex.
  assert (A1 : statusActive d1 = true) by (apply statusActive_iff; by left).
  assert (A2 : statusActive d2 = true) by (apply statusActive_iff; by left).
  specialize (Hex _ _ _ _ L1 L2 Hne A1 A2). congruence.
Qed.

(** Candidate 1 sends the same booking twice; both checks see the empty
    collection. *)
Lemma schedule_checks_before_saves_store_both_witness :
  scheduleCheck sampleJobs ∅ 1 (bodyFor 1000 None) 0 = inr sampleDoc
  /\ snd (scheduleSave (snd (scheduleSave ∅ sampleDoc 0)) sampleDoc 0)
     = {[ 0%nat := sampleDoc; 1%nat := sampleDoc ]}
  /\ ~ exclusive (snd (scheduleSave (snd (scheduleSave ∅ sampleDoc 0))
                         sampleDoc 0)).
Proof.
  split; [reflexivity |]. split; [vm_compute; reflexivity |].
  destruct (schedule_checks_before_saves_store_both sampleJobs ∅ 1 1
              (bodyFor 1000 None) (bodyFor 1000 None) 0 0 sampleDoc sampleDoc)
    as (_ & _ & _ & _ & _ & H); [reflexivity | reflexivity |].
  apply H. reflexivity.
Defined.
